(** * Observability instrumentation: metrics and structured logging

    A shallow embedding of [src/instrumentation/python-metrics.py] and
    [src/instrumentation/python-logging.py], and the properties of the
    request pipeline that follow from the code.

    Conventions of the embedding.
    - Python [str] values are Rocq strings (one character per byte, which is
      what Starlette's latin-1 decoded header values are).
    - Python [int] is [Z].  [time.time()] readings are integers too: the
      fractional part of the float clock is outside the model, so
      [round(x, 2)] on a value computed from readings is the identity.
    - A coroutine is a computation of the monad [M]; the [await] of the
      downstream handler is the boundary between the entry and the exit
      segment of each middleware.
    - Module-level globals (the registry, the logger's stream, the context
      variable) are the fields of one [World]. *)

From Stdlib Require Import ZArith Ascii String List Bool Lia.
From stdpp Require Import base decidable option list strings gmap pretty.

#[local] Open Scope Z_scope.
#[local] Open Scope string_scope.

(** ** Python values that occur in log records *)

Record exn := mk_exn {
  exn_type : string;          (* type(e).__name__ *)
  exn_str : string;           (* str(e) *)
  exn_is_Exception : bool     (* isinstance(e, Exception) *)
}.

Inductive pyval :=
| PNone
| PStr (s : string)
| PInt (z : Z)
| PStrDict (d : list (string * string)).

Definition dict := list (string * pyval).

(** A Python [dict] with string keys: insertion ordered, assignment to an
    existing key keeps its position. *)
Fixpoint dict_get {V} (k : string) (d : list (string * V)) : option V :=
  match d with
  | [] => None
  | (k', v) :: d' => if String.eqb k k' then Some v else dict_get k d'
  end.

Fixpoint dict_set {V} (k : string) (v : V) (d : list (string * V))
  : list (string * V) :=
  match d with
  | [] => [(k, v)]
  | (k', v') :: d' =>
      if String.eqb k k' then (k, v) :: d' else (k', v') :: dict_set k v d'
  end.

(** [{**d1, **d2}], [d1.update(d2)] and [dict(pairs)] *)
Definition dict_update {V} (d1 d2 : list (string * V)) : list (string * V) :=
  fold_left (fun acc kv => dict_set (fst kv) (snd kv) acc) d2 d1.

Definition dict_of_pairs {V} (pairs : list (string * V)) : list (string * V) :=
  dict_update [] pairs.

Definition dict_keys {V} (d : list (string * V)) : list string := map fst d.

(** ** Headers (Starlette [Headers] / [MutableHeaders])

    Names are stored lower-cased, as ASGI delivers them; lookups lower-case
    the key and return the first match. *)

Definition lower_char (c : ascii) : ascii :=
  let n := nat_of_ascii c in
  if ((65 <=? n) && (n <=? 90))%nat then ascii_of_nat (n + 32) else c.

Fixpoint lower (s : string) : string :=
  match s with
  | EmptyString => EmptyString
  | String c s' => String (lower_char c) (lower s')
  end.

Definition Headers := list (string * string).

Fixpoint headers_find (k : string) (h : Headers) : option string :=
  match h with
  | [] => None
  | (k', v) :: h' => if String.eqb k k' then Some v else headers_find k h'
  end.

Definition headers_get (key : string) (h : Headers) : option string :=
  headers_find (lower key) h.

(** [MutableHeaders.__setitem__]: the first entry of that name is replaced,
    further ones are removed, a missing one is appended. *)
Fixpoint headers_drop (k : string) (h : Headers) : Headers :=
  match h with
  | [] => []
  | (k', v) :: h' =>
      if String.eqb k k' then headers_drop k h' else (k', v) :: headers_drop k h'
  end.

Fixpoint headers_replace (k v : string) (h : Headers) : Headers :=
  match h with
  | [] => [(k, v)]
  | (k', v') :: h' =>
      if String.eqb k k' then (k, v) :: headers_drop k h'
      else (k', v') :: headers_replace k v h'
  end.

Definition headers_set (key value : string) (h : Headers) : Headers :=
  headers_replace (lower key) value h.

(** ** [int(str)] in base 10

    Surrounding whitespace is stripped, one sign is allowed, and digits may
    be separated by single underscores.  Anything else is a [ValueError]. *)

Definition is_space (c : ascii) : bool :=
  let n := nat_of_ascii c in
  (((9 <=? n) && (n <=? 13)) || ((28 <=? n) && (n <=? 32))
   || (n =? 133) || (n =? 160))%nat.

Fixpoint lstrip (cs : list ascii) : list ascii :=
  match cs with
  | c :: cs' => if is_space c then lstrip cs' else cs
  | [] => []
  end.

Definition strip (cs : list ascii) : list ascii :=
  rev (lstrip (rev (lstrip cs))).

Definition digit_of (c : ascii) : option Z :=
  let n := nat_of_ascii c in
  if ((48 <=? n) && (n <=? 57))%nat then Some (Z.of_nat (n - 48)) else None.

Fixpoint digits (acc : Z) (after_digit : bool) (cs : list ascii) : option Z :=
  match cs with
  | [] => if after_digit then Some acc else None
  | c :: cs' =>
      if Ascii.eqb c "_"%char
      then (if after_digit then digits acc false cs' else None)
      else match digit_of c with
           | Some d => digits (10 * acc + d) true cs'
           | None => None
           end
  end.

Definition parse_int (s : string) : option Z :=
  match strip (list_ascii_of_string s) with
  | c :: cs =>
      if Ascii.eqb c "-"%char then Z.opp <$> digits 0 false cs
      else if Ascii.eqb c "+"%char then digits 0 false cs
      else digits 0 false (c :: cs)
  | [] => None
  end.

Definition repr (s : string) : string := "'" ++ s ++ "'".

Definition ValueError (msg : string) : exn := mk_exn "ValueError" msg true.

Definition invalid_literal (s : string) : exn :=
  ValueError ("invalid literal for int() with base 10: " ++ repr s).

(** ** The [logging] package: levels, records, record creation *)

Inductive Level := DEBUG | INFO | WARNING | ERROR | CRITICAL.

Definition levelno (l : Level) : Z :=
  match l with
  | DEBUG => 10 | INFO => 20 | WARNING => 30 | ERROR => 40 | CRITICAL => 50
  end.

Definition levelname (l : Level) : string :=
  match l with
  | DEBUG => "DEBUG" | INFO => "INFO" | WARNING => "WARNING"
  | ERROR => "ERROR" | CRITICAL => "CRITICAL"
  end.

(** Where a logging call stands in the source: what [findCaller] reports. *)
Record CallSite := mk_site {
  site_file : string;
  site_line : Z;
  site_func : string
}.

Record LogRecord := mk_record {
  rec_name : string;
  rec_level : Level;
  rec_filename : string;
  rec_lineno : Z;
  rec_funcName : string;
  rec_msg : string;
  rec_created : Z;
  rec_exc_info : option exn;
  rec_extra : dict
}.

(** The attributes a fresh [LogRecord] already has.  [Logger.makeRecord]
    refuses an [extra] that names one of them, or [message] or [asctime]. *)
Definition logrecord_attrs : list string :=
  ["name"; "msg"; "args"; "levelname"; "levelno"; "pathname"; "filename";
   "module"; "exc_info"; "exc_text"; "stack_info"; "lineno"; "funcName";
   "created"; "msecs"; "relativeCreated"; "thread"; "threadName";
   "processName"; "process"].

Definition in_strings (k : string) (l : list string) : bool :=
  existsb (String.eqb k) l.

Definition extra_clash (k : string) : bool :=
  in_strings k ["message"; "asctime"] || in_strings k logrecord_attrs.

Definition dquote : string := String (ascii_of_nat 34) EmptyString.

Definition overwrite_error (k : string) : exn :=
  mk_exn "KeyError"
    (dquote ++ "Attempt to overwrite " ++ repr k ++ " in LogRecord" ++ dquote)
    true.

(** The text [formatException] produces, without the stack frame lines. *)
Definition newline : string := String (ascii_of_nat 10) EmptyString.

Definition format_exception (e : exn) : string :=
  "Traceback (most recent call last):" ++ newline
  ++ exn_type e ++ ": " ++ exn_str e.

(** What the console handler writes for one record: a line of text in
    development, a JSON object otherwise. *)
Inductive Output :=
| Text (line : string)
| Json (obj : dict).

Record Emitted := mk_emitted {
  em_record : LogRecord;
  em_output : Output
}.

(** ** The metric registry

    A labelled series is a finite map from label-value tuples (in the order
    of the declared label names) to its children.  A counter or gauge child
    is its value; a histogram child is the sequence of its observations,
    from which count, sum and bucket counts derive.  The registry holds the
    HTTP series, the ones the middleware records into. *)

Record Registry := mk_registry {
  http_requests_total : gmap (list string) Z;
  http_request_duration : gmap (list string) (list Z);
  http_request_size : gmap (list string) (list Z);
  http_response_size : gmap (list string) (list Z);
  active_requests : gmap (list string) Z
}.

Definition empty_registry : Registry := mk_registry ∅ ∅ ∅ ∅ ∅.

Inductive HistogramName :=
| H_http_request_duration
| H_http_request_size
| H_http_response_size.

(** ** HTTP objects *)

Record Request := mk_request {
  req_method : string;
  req_path : string;                        (* request.url.path *)
  req_route : option string;                (* template of the matched route *)
  req_query_params : list (string * string);
  req_client : option (string * Z);         (* (host, port) *)
  req_headers : Headers
}.

Record Response := mk_response {
  status_code : Z;
  headers : Headers
}.

(** ** The process state and the effect monad *)

Inductive Event :=
| EvClock (t : Z)
| EvGaugeInc (labels : list string)
| EvGaugeDec (labels : list string)
| EvCounterInc (labels : list string) (amount : Z)
| EvObserve (h : HistogramName) (labels : list string) (value : Z)
| EvEmit (e : Emitted)
| EvCallNext (r : Request).

Record World := mk_world {
  clock : nat -> Z;                 (* successive readings of time.time() *)
  ticks : nat;
  entropy : nat -> Z;               (* successive draws of os.urandom(16) *)
  draws : nat;
  trace_id_var : option string;     (* the context variable of this task *)
  stdout : list Emitted;            (* what console_handler has written *)
  registry : Registry;
  history : list Event              (* ghost: every effect, in order *)
}.

Inductive result (A : Type) :=
| Returned (a : A)
| Raised (e : exn).
Arguments Returned {A} a.
Arguments Raised {A} e.

Definition M (A : Type) : Type := World -> result A * World.

Definition ret {A} (a : A) : M A := fun w => (Returned a, w).

Definition raise {A} (e : exn) : M A := fun w => (Raised e, w).

Definition bind {A B} (m : M A) (k : A -> M B) : M B :=
  fun w =>
    match m w with
    | (Returned a, w') => k a w'
    | (Raised e, w') => (Raised e, w')
    end.

Notation "'let*' x ':=' m 'in' k" := (bind m (fun x => k))
  (at level 10, x name, m at level 100, k at level 200).
Notation "'do' m 'then' k" := (bind m (fun _ => k))
  (at level 10, m at level 100, k at level 200).

(** [try: body  except Exception as e: handler e] *)
Definition try_except_Exception {A} (body : M A) (handler : exn -> M A) : M A :=
  fun w =>
    match body w with
    | (Raised e, w') =>
        if exn_is_Exception e then handler e w' else (Raised e, w')
    | r => r
    end.

(** [try: body  finally: cleanup] *)
Definition try_finally {A} (body : M A) (cleanup : M unit) : M A :=
  fun w =>
    match body w with
    | (r, w') =>
        match cleanup w' with
        | (Returned _, w'') => (r, w'')
        | (Raised e, w'') => (Raised e, w'')
        end
    end.

Definition when (b : bool) (m : M unit) : M unit :=
  if b then m else ret tt.

Definition of_result {A} (r : result A) : M A := fun w => (r, w).

Definition record_event (ev : Event) : M unit :=
  fun w =>
    (Returned tt,
     mk_world (clock w) (ticks w) (entropy w) (draws w) (trace_id_var w)
       (stdout w) (registry w) (history w ++ [ev])).

Definition set_registry (r : Registry) : M unit :=
  fun w =>
    (Returned tt,
     mk_world (clock w) (ticks w) (entropy w) (draws w) (trace_id_var w)
       (stdout w) r (history w)).

Definition get_registry : M Registry := fun w => (Returned (registry w), w).

(** [time.time()] *)
Definition time_time : M Z :=
  fun w =>
    let t := clock w (ticks w) in
    (Returned t,
     mk_world (clock w) (S (ticks w)) (entropy w) (draws w) (trace_id_var w)
       (stdout w) (registry w) (history w ++ [EvClock t])).

(** [os.urandom(16)] read as an integer *)
Definition urandom16 : M Z :=
  fun w =>
    (Returned (entropy w (draws w) mod 2 ^ 128),
     mk_world (clock w) (ticks w) (entropy w) (S (draws w)) (trace_id_var w)
       (stdout w) (registry w) (history w)).

Definition write_stdout (e : Emitted) : M unit :=
  fun w =>
    (Returned tt,
     mk_world (clock w) (ticks w) (entropy w) (draws w) (trace_id_var w)
       (stdout w ++ [e]) (registry w) (history w ++ [EvEmit e])).

(** ** Configuration read from the environment at import time

    Both modules read [SERVICE_NAME] and [ENVIRONMENT].  [strftime] is the
    platform's rendering of a timestamp under a format string, which the
    model does not interpret. *)

Record Settings := mk_settings {
  SERVICE_NAME : string;
  LOG_LEVEL : Level;
  ENVIRONMENT : string;
  APP_VERSION : string;
  strftime : string -> Z -> string
}.

Definition default_settings (fmt : string -> Z -> string) : Settings :=
  mk_settings "pluggedin-service" INFO "production" "1.0.0" fmt.

(** * python-logging.py *)

(** [pythonjsonlogger.jsonlogger.JsonFormatter], the base class of the
    formatter: the part of [add_fields] and [format] that the subclass
    inherits.  The required fields are the names in the format string
    given at construction, ["%(timestamp)s %(level)s %(service)s
    %(message)s"]. *)
Module JsonFormatter.

Definition required_fields : list string :=
  ["timestamp"; "level"; "service"; "message"].

(** [record.__dict__.get(field)] for a required field *)
Definition record_attr (record : LogRecord) (field : string) : pyval :=
  if String.eqb field "message" then PStr (rec_msg record)
  else default PNone (dict_get field (rec_extra record)).

Definition starts_with_underscore (k : string) : bool :=
  match k with
  | String c _ => Ascii.eqb c "_"%char
  | EmptyString => false
  end.

Definition skipped (k : string) : bool :=
  in_strings k required_fields || extra_clash k || starts_with_underscore k.

(** [merge_record_extra]: the caller's fields, except reserved names and
    names that start with an underscore *)
Definition merge_record_extra (record : LogRecord) (target : dict) : dict :=
  fold_left
    (fun acc kv => if skipped (fst kv) then acc
                   else dict_set (fst kv) (snd kv) acc)
    (rec_extra record) target.

Definition add_fields (log_record : dict) (record : LogRecord)
    (message_dict : dict) : dict :=
  let log_record :=
    fold_left (fun acc field => dict_set field (record_attr record field) acc)
      required_fields log_record in
  let log_record := dict_update log_record message_dict in
  merge_record_extra record log_record.

(** the [message_dict] that [format] builds for a string message *)
Definition message_dict (record : LogRecord) : dict :=
  match rec_exc_info record with
  | Some e => [("exc_info", PStr (format_exception e))]
  | None => []
  end.

End JsonFormatter.

Definition trace_id_var_get : M (option string) :=
  fun w => (Returned (trace_id_var w), w).

Definition trace_id_var_set (v : option string) : M unit :=
  fun w =>
    (Returned tt,
     mk_world (clock w) (ticks w) (entropy w) (draws w) v
       (stdout w) (registry w) (history w)).

(** Truth value of an [Optional[str]] *)
Definition truthy (v : option string) : bool :=
  match v with
  | Some (String _ _) => true
  | _ => false
  end.

Module CustomJsonFormatter.

Definition datefmt : string := "%Y-%m-%dT%H:%M:%S.%fZ".

Definition formatTime (cfg : Settings) (record : LogRecord) (fmt : string)
  : string :=
  strftime cfg fmt (rec_created record).

Definition add_fields (cfg : Settings) (log_record : dict)
    (record : LogRecord) (message_dict : dict) : M dict :=
  let log_record := JsonFormatter.add_fields log_record record message_dict in
  (* Add timestamp *)
  let log_record :=
    dict_set "timestamp" (PStr (formatTime cfg record datefmt)) log_record in
  (* Add service metadata *)
  let log_record := dict_set "service" (PStr (SERVICE_NAME cfg)) log_record in
  let log_record := dict_set "environment" (PStr (ENVIRONMENT cfg)) log_record in
  let log_record := dict_set "version" (PStr (APP_VERSION cfg)) log_record in
  (* Add trace ID from context *)
  let* trace_id := trace_id_var_get in
  let log_record :=
    if truthy trace_id
    then dict_set "trace_id" (PStr (default "" trace_id)) log_record
    else log_record in
  (* Add log level *)
  let log_record :=
    dict_set "level" (PStr (levelname (rec_level record))) log_record in
  (* Add source location *)
  let log_record := dict_set "logger" (PStr (rec_name record)) log_record in
  let log_record := dict_set "file" (PStr (rec_filename record)) log_record in
  let log_record := dict_set "line" (PInt (rec_lineno record)) log_record in
  let log_record :=
    dict_set "function" (PStr (rec_funcName record)) log_record in
  ret log_record.

Definition format (cfg : Settings) (record : LogRecord) : M Output :=
  let* log_record :=
    add_fields cfg [] record (JsonFormatter.message_dict record) in
  ret (Json log_record).

End CustomJsonFormatter.

(** [logging.Formatter("%(asctime)s - %(name)s - %(levelname)s -
    %(message)s", datefmt="%Y-%m-%d %H:%M:%S")] *)
Module DevFormatter.

Definition datefmt : string := "%Y-%m-%d %H:%M:%S".

Definition format (cfg : Settings) (record : LogRecord) : M Output :=
  let line :=
    strftime cfg datefmt (rec_created record) ++ " - " ++ rec_name record
    ++ " - " ++ levelname (rec_level record) ++ " - " ++ rec_msg record in
  ret (Text match rec_exc_info record with
            | Some e => line ++ newline ++ format_exception e
            | None => line
            end).

End DevFormatter.

(** Use JSON formatter for production, simple formatter for development *)
Definition formatter (cfg : Settings) : LogRecord -> M Output :=
  if String.eqb (ENVIRONMENT cfg) "development"
  then DevFormatter.format cfg
  else CustomJsonFormatter.format cfg.

(** [Logger.makeRecord]: the record takes its creation time from the clock,
    then the caller's [extra] is copied in unless a key would overwrite an
    attribute. *)
Definition makeRecord (cfg : Settings) (site : CallSite) (level : Level)
    (msg : string) (extra : dict) (exc_info : option exn) : M LogRecord :=
  let* created := time_time in
  match find extra_clash (dict_keys extra) with
  | Some k => raise (overwrite_error k)
  | None =>
      ret (mk_record (SERVICE_NAME cfg) level (site_file site) (site_line site)
             (site_func site) msg created exc_info extra)
  end.

Definition isEnabledFor (cfg : Settings) (level : Level) : bool :=
  (levelno (LOG_LEVEL cfg) <=? levelno level)%Z.

(** [logger.log(level, msg, extra=extra, exc_info=...)], with the one
    handler [console_handler] and no propagation to the root logger *)
Definition logger_log (cfg : Settings) (site : CallSite) (level : Level)
    (msg : string) (extra : dict) (exc_info : option exn) : M unit :=
  if isEnabledFor cfg level then
    let* record := makeRecord cfg site level msg extra exc_info in
    let* out := formatter cfg record in
    write_stdout (mk_emitted record out)
  else ret tt.

Definition logger_debug cfg site msg extra := logger_log cfg site DEBUG msg extra None.
Definition logger_info cfg site msg extra := logger_log cfg site INFO msg extra None.
Definition logger_error cfg site msg extra exc_info :=
  logger_log cfg site ERROR msg extra exc_info.

(** ** Helper functions *)

(** [uuid.uuid4()] and [str] of it *)
Module uuid.

Definition hex_chars : list ascii := list_ascii_of_string "0123456789abcdef".

Definition hex_digit (d : Z) : ascii := nth (Z.to_nat d) hex_chars "0"%char.

(** ['%032x' % n] *)
Definition hex32 (n : Z) : list ascii :=
  map (fun k => hex_digit ((n / 16 ^ Z.of_nat k) mod 16)) (rev (seq 0 32)).

(** [UUID(bytes=..., version=4)]: variant and version bits are forced *)
Definition uuid4 (random : Z) : Z :=
  let int := Z.land random (Z.lnot (Z.shiftl 49152 48)) in
  let int := Z.lor int (Z.shiftl 32768 48) in
  let int := Z.land int (Z.lnot (Z.shiftl 61440 64)) in
  Z.lor int (Z.shiftl 4 76).

Definition str (int : Z) : string :=
  let hex := hex32 int in
  let dash := ["-"%char] in
  string_of_list_ascii
    (firstn 8 hex ++ dash ++ firstn 4 (skipn 8 hex) ++ dash
     ++ firstn 4 (skipn 12 hex) ++ dash ++ firstn 4 (skipn 16 hex) ++ dash
     ++ skipn 20 hex).

Definition is_hex (c : ascii) : bool :=
  existsb (Ascii.eqb c) hex_chars.

(** the shape 8-4-4-4-12 of hexadecimal digits *)
Fixpoint well_formed_from (i : nat) (cs : list ascii) : bool :=
  match cs with
  | [] => (i =? 36)%nat
  | c :: cs' =>
      (if existsb (Nat.eqb i) [8; 13; 18; 23]%nat
       then Ascii.eqb c "-"%char else is_hex c)
      && well_formed_from (S i) cs'
  end.

Definition well_formed (s : string) : bool :=
  well_formed_from 0 (list_ascii_of_string s).

End uuid.

Definition generate_trace_id : M string :=
  let* random := urandom16 in
  ret (uuid.str (uuid.uuid4 random)).

Definition set_trace_id (trace_id : string) : M unit :=
  trace_id_var_set (Some trace_id).

Definition get_trace_id : M (option string) := trace_id_var_get.

(** ** Loggers with additional context

    [logging.LoggerAdapter(logger, context)]: the adapter holds the module's
    logger and the context.  Its [process] puts the context in the place of
    the [extra] of each call, and [log] hands the call to the logger when
    the level is enabled. *)
Record LoggerAdapter := mk_adapter {
  adapter_extra : dict
}.

Definition create_logger (name : string) (context : dict) : LoggerAdapter :=
  mk_adapter context.

Definition adapter_log (cfg : Settings) (adapter : LoggerAdapter)
    (site : CallSite) (level : Level) (msg : string) (extra : dict)
    (exc_info : option exn) : M unit :=
  if isEnabledFor cfg level
  then logger_log cfg site level msg (adapter_extra adapter) exc_info
  else ret tt.

(** ** The downstream handler

    What [await call_next(request)] stands for: the rest of the application
    makes its logging calls through the same logger and then either
    produces a response or raises. *)

Record LogCall := mk_logcall {
  lc_site : CallSite;
  lc_level : Level;
  lc_msg : string;
  lc_extra : dict;
  lc_exc_info : option exn
}.

Record Downstream := mk_downstream {
  ds_logs : list LogCall;
  ds_outcome : result Response
}.

Fixpoint emit_all (cfg : Settings) (calls : list LogCall) : M unit :=
  match calls with
  | [] => ret tt
  | c :: calls' =>
      do logger_log cfg (lc_site c) (lc_level c) (lc_msg c) (lc_extra c)
           (lc_exc_info c) then
      emit_all cfg calls'
  end.

Definition call_next (cfg : Settings) (d : Downstream) (request : Request)
  : M Response :=
  do record_event (EvCallNext request) then
  do emit_all cfg (ds_logs d) then
  of_result (ds_outcome d).

(** ** FastAPI middleware *)

Definition this_file : string := "python-logging.py".

Definition opt_str (v : option string) : pyval :=
  match v with
  | Some s => PStr s
  | None => PNone
  end.

Module LoggingMiddleware.

Definition dispatch (cfg : Settings) (request : Request)
    (call_next : Request -> M Response) : M Response :=
  (* Generate or extract trace ID *)
  let header := headers_get "x-trace-id" (req_headers request) in
  let* trace_id :=
    (if truthy header then ret (default "" header) else generate_trace_id) in
  do set_trace_id trace_id then
  let* start_time := time_time in
  (* Log incoming request *)
  do logger_info cfg (mk_site this_file 162 "dispatch") "Incoming request"
       [("method", PStr (req_method request));
        ("path", PStr (req_path request));
        ("query_params", PStrDict (dict_of_pairs (req_query_params request)));
        ("client_ip", opt_str (fst <$> req_client request));
        ("user_agent", opt_str (headers_get "user-agent" (req_headers request)))]
  then
  (* Process request *)
  let* response := call_next request in
  (* Calculate duration *)
  let* now := time_time in
  let duration_ms := (now - start_time) * 1000 in
  (* Determine log level based on status code *)
  let log_level :=
    if (500 <=? status_code response)%Z then ERROR
    else if (400 <=? status_code response)%Z then WARNING
    else INFO in
  (* Log response *)
  do logger_log cfg (mk_site this_file 188 "dispatch") log_level
       "Request completed"
       [("method", PStr (req_method request));
        ("path", PStr (req_path request));
        ("status_code", PInt (status_code response));
        ("duration_ms", PInt duration_ms)]
       None
  then
  (* Add trace ID to response headers *)
  let response :=
    mk_response (status_code response)
      (headers_set "X-Trace-ID" trace_id (headers response)) in
  ret response.

End LoggingMiddleware.

(** ** Decorators *)

Module log_execution.

Record Sites := mk_sites {
  at_debug : CallSite;
  at_info : CallSite;
  at_error : CallSite
}.

Definition wrapper (sites : Sites) (cfg : Settings) (operation : string)
    (default_context : dict) {A} (func : M A) : M A :=
  let* start := time_time in
  let context := dict_update default_context [("operation", PStr operation)] in
  do logger_debug cfg (at_debug sites) ("Starting " ++ operation) context then
  try_except_Exception
    (let* result := func in
     let* now := time_time in
     let duration_ms := (now - start) * 1000 in
     do logger_info cfg (at_info sites) ("Completed " ++ operation)
          (dict_update context
             [("duration_ms", PInt duration_ms); ("status", PStr "success")])
     then
     ret result)
    (fun e =>
     let* now := time_time in
     let duration_ms := (now - start) * 1000 in
     do logger_error cfg (at_error sites) ("Failed " ++ operation)
          (dict_update context
             [("duration_ms", PInt duration_ms);
              ("status", PStr "error");
              ("error", PStr (exn_str e));
              ("error_type", PStr (exn_type e))])
          (Some e)
     then
     raise e).

Definition async_sites : Sites :=
  mk_sites (mk_site this_file 225 "async_wrapper")
    (mk_site this_file 231 "async_wrapper")
    (mk_site this_file 241 "async_wrapper").

Definition sync_sites : Sites :=
  mk_sites (mk_site this_file 260 "sync_wrapper")
    (mk_site this_file 266 "sync_wrapper")
    (mk_site this_file 276 "sync_wrapper").

Definition async_wrapper (cfg : Settings) (operation : string)
    (default_context : dict) {A} (func : M A) : M A :=
  wrapper async_sites cfg operation default_context func.

Definition sync_wrapper (cfg : Settings) (operation : string)
    (default_context : dict) {A} (func : M A) : M A :=
  wrapper sync_sites cfg operation default_context func.

(** [log_execution(operation, **default_context)(func)]; [iscoroutine]
    is [asyncio.iscoroutinefunction(func)] *)
Definition decorator (cfg : Settings) (operation : string)
    (default_context : dict) (iscoroutine : bool) {A} (func : M A) : M A :=
  if iscoroutine
  then async_wrapper cfg operation default_context func
  else sync_wrapper cfg operation default_context func.

End log_execution.

(** ** Context manager *)

(** [with mgr: body], for a manager whose [__exit__] returns [None] *)
Definition with_statement {T A} (enter : M T) (exit : T -> option exn -> M unit)
    (body : M A) : M A :=
  let* self := enter in
  fun w =>
    match body w with
    | (Returned a, w') => (do exit self None then ret a) w'
    | (Raised e, w') => (do exit self (Some e) then raise e) w'
    end.

Module Timer.

Record t := mk {
  operation : string;
  context : dict;
  start : option Z
}.

Definition init (operation : string) (context : dict) : t :=
  mk operation context None.

Definition enter (cfg : Settings) (self : t) : M t :=
  let* now := time_time in
  let self := mk (operation self) (context self) (Some now) in
  do logger_debug cfg (mk_site this_file 320 "__enter__")
       ("Starting " ++ operation self) (context self)
  then
  ret self.

Definition exit (cfg : Settings) (self : t) (exc : option exn) : M unit :=
  let* now := time_time in
  match start self with
  | None =>
      raise (mk_exn "TypeError"
               "unsupported operand type(s) for -: 'float' and 'NoneType'"
               true)
  | Some start =>
      let duration_ms := (now - start) * 1000 in
      match exc with
      | None =>
          logger_info cfg (mk_site this_file 327 "__exit__")
            ("Completed " ++ operation self)
            (dict_update (context self)
               [("duration_ms", PInt duration_ms); ("status", PStr "success")])
      | Some e =>
          logger_error cfg (mk_site this_file 336 "__exit__")
            ("Failed " ++ operation self)
            (dict_update (context self)
               [("duration_ms", PInt duration_ms);
                ("status", PStr "error");
                ("error", PStr (exn_str e));
                ("error_type", PStr (exn_type e))])
            (Some e)
      end
  end.

(** [with Timer(operation, **context): body] *)
Definition scope (cfg : Settings) (operation : string) (context : dict)
    {A} (body : M A) : M A :=
  with_statement (enter cfg (init operation context)) (exit cfg) body.

End Timer.

(** * python-metrics.py *)

(** ** Recording into the series

    [series.labels(...)] selects the child of a label-value tuple, creating
    it at zero (or without observations) when it is new. *)

Definition child_value (m : gmap (list string) Z) (labels : list string) : Z :=
  default 0 (m !! labels).

Definition child_observations (m : gmap (list string) (list Z))
    (labels : list string) : list Z :=
  default [] (m !! labels).

Definition add_to (labels : list string) (amount : Z)
    (m : gmap (list string) Z) : gmap (list string) Z :=
  <[labels := child_value m labels + amount]> m.

Definition append_to (labels : list string) (value : Z)
    (m : gmap (list string) (list Z)) : gmap (list string) (list Z) :=
  <[labels := (child_observations m labels ++ [value])%list]> m.

(** [http_requests_total.labels(...).inc(amount)] *)
Definition inc_http_requests_total (labels : list string) (amount : Z)
  : M unit :=
  if (amount <? 0)%Z
  then raise (ValueError
                "Counters can only be incremented by non-negative amounts.")
  else
    let* r := get_registry in
    do set_registry
         (mk_registry (add_to labels amount (http_requests_total r))
            (http_request_duration r) (http_request_size r)
            (http_response_size r) (active_requests r))
    then
    record_event (EvCounterInc labels amount).

(** [active_requests.labels(...).inc()] and [.dec()] *)
Definition inc_active_requests (labels : list string) : M unit :=
  let* r := get_registry in
  do set_registry
       (mk_registry (http_requests_total r) (http_request_duration r)
          (http_request_size r) (http_response_size r)
          (add_to labels 1 (active_requests r)))
  then
  record_event (EvGaugeInc labels).

Definition dec_active_requests (labels : list string) : M unit :=
  let* r := get_registry in
  do set_registry
       (mk_registry (http_requests_total r) (http_request_duration r)
          (http_request_size r) (http_response_size r)
          (add_to labels (-1) (active_requests r)))
  then
  record_event (EvGaugeDec labels).

Definition histogram (h : HistogramName) (r : Registry)
  : gmap (list string) (list Z) :=
  match h with
  | H_http_request_duration => http_request_duration r
  | H_http_request_size => http_request_size r
  | H_http_response_size => http_response_size r
  end.

Definition set_histogram (h : HistogramName)
    (m : gmap (list string) (list Z)) (r : Registry) : Registry :=
  match h with
  | H_http_request_duration =>
      mk_registry (http_requests_total r) m (http_request_size r)
        (http_response_size r) (active_requests r)
  | H_http_request_size =>
      mk_registry (http_requests_total r) (http_request_duration r) m
        (http_response_size r) (active_requests r)
  | H_http_response_size =>
      mk_registry (http_requests_total r) (http_request_duration r)
        (http_request_size r) m (active_requests r)
  end.

(** [metric.labels(...).observe(value)] *)
Definition observe (h : HistogramName) (labels : list string) (value : Z)
  : M unit :=
  let* r := get_registry in
  do set_registry (set_histogram h (append_to labels value (histogram h r)) r)
  then
  record_event (EvObserve h labels value).

(** [int(headers.get("content-length", 0))] *)
Definition content_length (h : Headers) : M Z :=
  match headers_get "content-length" h with
  | None => ret 0
  | Some s =>
      match parse_int s with
      | Some n => ret n
      | None => raise (invalid_literal s)
      end
  end.

(** [str(n)] of an integer, as a label value *)
Definition str_int (n : Z) : string := pretty n.

(** ** FastAPI middleware *)

Module MetricsMiddleware.

Definition dispatch (cfg : Settings) (request : Request)
    (call_next : Request -> M Response) : M Response :=
  let* start_time := time_time in
  (* Increment active requests *)
  do inc_active_requests [SERVICE_NAME cfg] then
  (* Track request size *)
  let* request_size := content_length (req_headers request) in
  do when (0 <? request_size)%Z
       (observe H_http_request_size
          [req_method request; req_path request; SERVICE_NAME cfg]
          request_size)
  then
  (* Process request *)
  let* response := call_next request in
  (* Calculate duration *)
  let* now := time_time in
  let duration := now - start_time in
  (* Get response size *)
  let* response_size := content_length (headers response) in
  (* Record metrics *)
  do inc_http_requests_total
       [req_method request; req_path request;
        str_int (status_code response); SERVICE_NAME cfg] 1
  then
  do observe H_http_request_duration
       [req_method request; req_path request;
        str_int (status_code response); SERVICE_NAME cfg] duration
  then
  do when (0 <? response_size)%Z
       (observe H_http_response_size
          [req_method request; req_path request;
           str_int (status_code response); SERVICE_NAME cfg]
          response_size)
  then
  (* Decrement active requests *)
  do dec_active_requests [SERVICE_NAME cfg] then
  ret response.

(** The two segments of the coroutine, before and after
    [await call_next(request)]. *)
Definition entry (cfg : Settings) (request : Request) : M Z :=
  let* start_time := time_time in
  do inc_active_requests [SERVICE_NAME cfg] then
  let* request_size := content_length (req_headers request) in
  do when (0 <? request_size)%Z
       (observe H_http_request_size
          [req_method request; req_path request; SERVICE_NAME cfg]
          request_size)
  then
  ret start_time.

Definition resume (cfg : Settings) (request : Request) (start_time : Z)
    (response : Response) : M Response :=
  let* now := time_time in
  let duration := now - start_time in
  let* response_size := content_length (headers response) in
  do inc_http_requests_total
       [req_method request; req_path request;
        str_int (status_code response); SERVICE_NAME cfg] 1
  then
  do observe H_http_request_duration
       [req_method request; req_path request;
        str_int (status_code response); SERVICE_NAME cfg] duration
  then
  do when (0 <? response_size)%Z
       (observe H_http_response_size
          [req_method request; req_path request;
           str_int (status_code response); SERVICE_NAME cfg]
          response_size)
  then
  do dec_active_requests [SERVICE_NAME cfg] then
  ret response.

End MetricsMiddleware.

(** ** Helper functions and decorators *)

(** [track_time(metric, labels)(func)]: [labels] are the label values in the
    declared order.  The asynchronous and the synchronous wrapper have the
    same body. *)
Module track_time.

Definition wrapper (metric : HistogramName) (labels : list string) {A}
    (func : M A) : M A :=
  let* start := time_time in
  try_finally func
    (let* now := time_time in
     let duration := now - start in
     observe metric labels duration).

End track_time.

(** ** Context manager of python-metrics.py

    The class [Timer] of the metrics module.  [labels] are the label values
    in the declared order, as for [track_time]. *)
Module MetricsTimer.

Record t := mk {
  metric : HistogramName;
  labels : list string;
  start : option Z
}.

Definition init (metric : HistogramName) (labels : list string) : t :=
  mk metric labels None.

Definition enter (self : t) : M t :=
  let* now := time_time in
  ret (mk (metric self) (labels self) (Some now)).

Definition exit (self : t) (exc : option exn) : M unit :=
  let* now := time_time in
  match start self with
  | None =>
      raise (mk_exn "TypeError"
               "unsupported operand type(s) for -: 'float' and 'NoneType'"
               true)
  | Some start =>
      let duration := now - start in
      observe (metric self) (labels self) duration
  end.

(** [with Timer(metric, labels): body] *)
Definition scope (metric : HistogramName) (labels : list string) {A}
    (body : M A) : M A :=
  with_statement (enter (init metric labels)) exit body.

End MetricsTimer.

(** ** The connection pool gauge

    [db_connection_pool] is a gauge with the label names [database] and
    [state]; the function is given as a transformer of the children of that
    gauge.  [gauge.labels(...).set(value)] *)
Definition gauge_set (labels : list string) (value : Z)
    (children : gmap (list string) Z) : gmap (list string) Z :=
  <[labels := value]> children.

Definition update_db_connection_pool (database : string) (total idle active : Z)
    (db_connection_pool : gmap (list string) Z) : gmap (list string) Z :=
  let db_connection_pool :=
    gauge_set [database; "total"] total db_connection_pool in
  let db_connection_pool :=
    gauge_set [database; "idle"] idle db_connection_pool in
  gauge_set [database; "active"] active db_connection_pool.

(** ** Concurrent requests

    Under the cooperative scheduler a request task runs without
    interruption between two suspension points.  A task of the metrics
    middleware is therefore three atomic segments: entry, the downstream
    handler, resumption. *)

Inductive Task :=
| Ready (request : Request) (d : Downstream)
| Suspended (request : Request) (start_time : Z) (d : Downstream)
| Resumable (request : Request) (start_time : Z) (response : Response)
| Finished (request : Request) (r : result Response).

Definition step (cfg : Settings) (t : Task) (w : World) : Task * World :=
  match t with
  | Ready request d =>
      match MetricsMiddleware.entry cfg request w with
      | (Returned start_time, w') => (Suspended request start_time d, w')
      | (Raised e, w') => (Finished request (Raised e), w')
      end
  | Suspended request start_time d =>
      match call_next cfg d request w with
      | (Returned response, w') => (Resumable request start_time response, w')
      | (Raised e, w') => (Finished request (Raised e), w')
      end
  | Resumable request start_time response =>
      match MetricsMiddleware.resume cfg request start_time response w with
      | (r, w') => (Finished request r, w')
      end
  | Finished request r => (Finished request r, w)
  end.

(** A schedule names, at each turn, the task that runs its next segment. *)
Fixpoint run_schedule (cfg : Settings) (schedule : list nat)
    (tasks : list Task) (w : World) : list Task * World :=
  match schedule with
  | [] => (tasks, w)
  | i :: schedule' =>
      match tasks !! i with
      | Some t =>
          let '(t', w') := step cfg t w in
          run_schedule cfg schedule' (<[i := t']> tasks) w'
      | None => run_schedule cfg schedule' tasks w
      end
  end.

(** All the ways two sequences of operations can interleave *)
Inductive Interleave {A} : list A -> list A -> list A -> Prop :=
| Interleave_nil : Interleave [] [] []
| Interleave_left x xs ys zs :
    Interleave xs ys zs -> Interleave (x :: xs) ys (x :: zs)
| Interleave_right y xs ys zs :
    Interleave xs ys zs -> Interleave xs (y :: ys) (y :: zs).

(** One increment of a task: whether it succeeds or raises in its task, the
    registry it leaves is what the next operation finds. *)
Definition after_inc (w : World) (op : list string * Z) : World :=
  snd (inc_http_requests_total (fst op) (snd op) w).

Definition after_incs (ops : list (list string * Z)) (w : World) : World :=
  fold_left after_inc ops w.

(** what the increments of [ops] on one child add up to *)
Fixpoint total_for (labels : list string) (ops : list (list string * Z)) : Z :=
  match ops with
  | [] => 0
  | (l, amount) :: ops' =>
      (if bool_decide (l = labels) && (0 <=? amount)%Z then amount else 0)
      + total_for labels ops'
  end.

(** ** An application with both middlewares

    [app.add_middleware(MetricsMiddleware)] followed by
    [app.add_middleware(LoggingMiddleware)]: the logging middleware is the
    outer one, and its [call_next] is the metrics middleware around the
    handler. *)
Definition pipeline (cfg : Settings) (d : Downstream) (request : Request)
  : M Response :=
  LoggingMiddleware.dispatch cfg request
    (fun request =>
       MetricsMiddleware.dispatch cfg request (call_next cfg d)).

(** The two segments of the logging middleware's coroutine, before and
    after [await call_next(request)]. *)
Module LoggingSegments.

Definition entry (cfg : Settings) (request : Request) : M (string * Z) :=
  let header := headers_get "x-trace-id" (req_headers request) in
  let* trace_id :=
    (if truthy header then ret (default "" header) else generate_trace_id) in
  do set_trace_id trace_id then
  let* start_time := time_time in
  do logger_info cfg (mk_site this_file 162 "dispatch") "Incoming request"
       [("method", PStr (req_method request));
        ("path", PStr (req_path request));
        ("query_params", PStrDict (dict_of_pairs (req_query_params request)));
        ("client_ip", opt_str (fst <$> req_client request));
        ("user_agent", opt_str (headers_get "user-agent" (req_headers request)))]
  then
  ret (trace_id, start_time).

Definition resume (cfg : Settings) (request : Request) (trace_id : string)
    (start_time : Z) (response : Response) : M Response :=
  let* now := time_time in
  let duration_ms := (now - start_time) * 1000 in
  let log_level :=
    if (500 <=? status_code response)%Z then ERROR
    else if (400 <=? status_code response)%Z then WARNING
    else INFO in
  do logger_log cfg (mk_site this_file 188 "dispatch") log_level
       "Request completed"
       [("method", PStr (req_method request));
        ("path", PStr (req_path request));
        ("status_code", PInt (status_code response));
        ("duration_ms", PInt duration_ms)]
       None
  then
  ret (mk_response (status_code response)
         (headers_set "X-Trace-ID" trace_id (headers response))).

End LoggingSegments.

(** * Vocabulary of the properties *)

(** What a run adds to the history and to the console *)
Definition new_events (w w' : World) : list Event :=
  skipn (length (history w)) (history w').

Definition new_records (w w' : World) : list Emitted :=
  skipn (length (stdout w)) (stdout w').

Definition occurs_before {A} (x y : A) (l : list A) : Prop :=
  exists l1 l2 l3, l = (l1 ++ x :: l2 ++ y :: l3)%list.

Definition is_logging_event (ev : Event) : Prop :=
  match ev with
  | EvClock _ | EvEmit _ => True
  | _ => False
  end.

Definition is_metric_event (ev : Event) : Prop :=
  match ev with
  | EvGaugeInc _ | EvGaugeDec _ | EvCounterInc _ _ | EvObserve _ _ _ => True
  | _ => False
  end.

(** The label value at position [endpoint] of the series that have it *)
Definition endpoint_label (ev : Event) : option string :=
  match ev with
  | EvCounterInc labels _ => labels !! 1%nat
  | EvObserve _ labels _ => labels !! 1%nat
  | _ => None
  end.

Definition observed (h : HistogramName) (evs : list Event) : Prop :=
  exists labels value, In (EvObserve h labels value) evs.

(** A content-length header that parses to a value greater than zero *)
Definition positive_size (h : Headers) : Prop :=
  exists s n, headers_get "content-length" h = Some s
              /\ parse_int s = Some n /\ 0 < n.

(** The severity the status code of a response calls for *)
Definition severity (status : Z) : Level :=
  if (500 <=? status)%Z then ERROR
  else if (400 <=? status)%Z then WARNING
  else INFO.

(** A written record shows the token: as the [trace_id] member of the JSON
    object, or somewhere in the line of text. *)
Definition is_substring (s line : string) : bool :=
  match index 0 s line with
  | Some _ => true
  | None => false
  end.

Definition shows_trace (token : string) (o : Output) : bool :=
  match o with
  | Json obj =>
      match dict_get "trace_id" obj with
      | Some (PStr s) => String.eqb s token
      | _ => false
      end
  | Text line => is_substring token line
  end.

Definition has_key (k : string) (o : Output) : bool :=
  match o with
  | Json obj => bool_decide (is_Some (dict_get k obj))
  | Text _ => false
  end.

Definition member (k : string) (o : Output) : option pyval :=
  match o with
  | Json obj => dict_get k obj
  | Text _ => None
  end.

(** The keys every production record has *)
Definition reserved_keys : list string :=
  ["timestamp"; "level"; "service"; "environment"; "version"; "logger";
   "file"; "line"; "function"; "message"].

(** An [extra] that [makeRecord] accepts *)
Definition accepted (extra : dict) : Prop :=
  find extra_clash (dict_keys extra) = None.

Definition production (cfg : Settings) : Prop :=
  ENVIRONMENT cfg <> "development".

Definition gauge (w : World) (labels : list string) : Z :=
  child_value (active_requests (registry w)) labels.

Definition counter (w : World) (labels : list string) : Z :=
  child_value (http_requests_total (registry w)) labels.

(** The label tuple under which a finished request was counted *)
Definition counted_as (cfg : Settings) (labels : list string) (t : Task) : bool :=
  match t with
  | Finished request (Returned response) =>
      bool_decide
        (labels = [req_method request; req_path request;
                   str_int (status_code response); SERVICE_NAME cfg])
  | _ => false
  end.

Fixpoint count_as (cfg : Settings) (labels : list string)
    (tasks : list Task) : Z :=
  match tasks with
  | [] => 0
  | t :: tasks' =>
      (if counted_as cfg labels t then 1 else 0) + count_as cfg labels tasks'
  end.

Definition is_ready (t : Task) : Prop :=
  match t with
  | Ready _ _ => True
  | _ => False
  end.

(** * Auxiliary definitions

    Closed forms of the worlds and traces the code produces, used to state
    and prove the properties. *)

(** The JSON object of a record, as a function of the bound token *)
Definition json_of (cfg : Settings) (trace_id : option string)
    (record : LogRecord) : dict :=
  let base :=
    dict_set "version" (PStr (APP_VERSION cfg))
      (dict_set "environment" (PStr (ENVIRONMENT cfg))
         (dict_set "service" (PStr (SERVICE_NAME cfg))
            (dict_set "timestamp"
               (PStr (strftime cfg CustomJsonFormatter.datefmt
                        (rec_created record)))
               (JsonFormatter.add_fields [] record
                  (JsonFormatter.message_dict record))))) in
  let traced :=
    if truthy trace_id
    then dict_set "trace_id" (PStr (default "" trace_id)) base
    else base in
  dict_set "function" (PStr (rec_funcName record))
    (dict_set "line" (PInt (rec_lineno record))
       (dict_set "file" (PStr (rec_filename record))
          (dict_set "logger" (PStr (rec_name record))
             (dict_set "level" (PStr (levelname (rec_level record))) traced)))).

Definition text_of (cfg : Settings) (record : LogRecord) : string :=
  let line :=
    strftime cfg DevFormatter.datefmt (rec_created record) ++ " - "
    ++ rec_name record ++ " - " ++ levelname (rec_level record) ++ " - "
    ++ rec_msg record in
  match rec_exc_info record with
  | Some e => line ++ newline ++ format_exception e
  | None => line
  end.

Definition render (cfg : Settings) (trace_id : option string)
    (record : LogRecord) : Output :=
  if String.eqb (ENVIRONMENT cfg) "development"
  then Text (text_of cfg record)
  else Json (json_of cfg trace_id record).

Definition record_at (cfg : Settings) (site : CallSite) (level : Level)
    (msg : string) (extra : dict) (exc_info : option exn) (created : Z)
  : LogRecord :=
  mk_record (SERVICE_NAME cfg) level (site_file site) (site_line site)
    (site_func site) msg created exc_info extra.

Definition emitted_at (cfg : Settings) (site : CallSite) (level : Level)
    (msg : string) (extra : dict) (exc_info : option exn) (w : World)
  : Emitted :=
  let record := record_at cfg site level msg extra exc_info (clock w (ticks w)) in
  mk_emitted record (render cfg (trace_id_var w) record).

Definition after_clock (w : World) : World :=
  mk_world (clock w) (S (ticks w)) (entropy w) (draws w) (trace_id_var w)
    (stdout w) (registry w) (history w ++ [EvClock (clock w (ticks w))]).

Definition after_emit (e : Emitted) (w : World) : World :=
  mk_world (clock w) (S (ticks w)) (entropy w) (draws w) (trace_id_var w)
    (stdout w ++ [e]) (registry w)
    (history w ++ [EvClock (clock w (ticks w)); EvEmit e]).

(** Worlds that differ by logging calls only *)
Inductive logging_run (cfg : Settings) : World -> World -> Prop :=
| logging_none w : logging_run cfg w w
| logging_clock w w' :
    logging_run cfg w w' -> logging_run cfg w (after_clock w')
| logging_emit w w' record :
    logging_run cfg w w' ->
    logging_run cfg w
      (after_emit (mk_emitted record (render cfg (trace_id_var w') record)) w').

Definition after_event (ev : Event) (w : World) : World :=
  mk_world (clock w) (ticks w) (entropy w) (draws w) (trace_id_var w)
    (stdout w) (registry w) (history w ++ [ev]).

(** [int(headers.get("content-length", 0))] as a value *)
Definition size_of (h : Headers) : result Z :=
  match headers_get "content-length" h with
  | None => Returned 0
  | Some s =>
      match parse_int s with
      | Some n => Returned n
      | None => Raised (invalid_literal s)
      end
  end.

Definition reg_gauge (labels : list string) (delta : Z) (r : Registry)
  : Registry :=
  mk_registry (http_requests_total r) (http_request_duration r)
    (http_request_size r) (http_response_size r)
    (add_to labels delta (active_requests r)).

Definition reg_count (labels : list string) (amount : Z) (r : Registry)
  : Registry :=
  mk_registry (add_to labels amount (http_requests_total r))
    (http_request_duration r) (http_request_size r) (http_response_size r)
    (active_requests r).

Definition reg_observe (h : HistogramName) (labels : list string) (value : Z)
    (r : Registry) : Registry :=
  set_histogram h (append_to labels value (histogram h r)) r.

(** A segment that reads the clock once, updates the registry and leaves
    the given events *)
Definition recorded (f : Registry -> Registry) (evs : list Event) (w : World)
  : World :=
  mk_world (clock w) (S (ticks w)) (entropy w) (draws w) (trace_id_var w)
    (stdout w) (f (registry w)) (history w ++ evs).

Definition size_events (h : HistogramName) (labels : list string) (n : Z)
  : list Event :=
  if (0 <? n)%Z then [EvObserve h labels n] else [].

Definition reg_size (h : HistogramName) (labels : list string) (n : Z)
    (r : Registry) : Registry :=
  if (0 <? n)%Z then reg_observe h labels n r else r.

Definition request_labels (cfg : Settings) (request : Request) : list string :=
  [req_method request; req_path request; SERVICE_NAME cfg].

Definition response_labels (cfg : Settings) (request : Request)
    (response : Response) : list string :=
  [req_method request; req_path request; str_int (status_code response);
   SERVICE_NAME cfg].

(** Every way the metrics middleware can run *)
Inductive metrics_run (cfg : Settings) (request : Request) (d : Downstream)
    (w : World) : result Response -> World -> Prop :=
| run_bad_request e :
    size_of (req_headers request) = Raised e ->
    metrics_run cfg request d w (Raised e)
      (recorded (reg_gauge [SERVICE_NAME cfg] 1)
         [EvClock (clock w (ticks w)); EvGaugeInc [SERVICE_NAME cfg]] w)
| run_downstream_raised n w1 e w2 :
    size_of (req_headers request) = Returned n ->
    MetricsMiddleware.entry cfg request w = (Returned (clock w (ticks w)), w1) ->
    call_next cfg d request w1 = (Raised e, w2) ->
    metrics_run cfg request d w (Raised e) w2
| run_resumed n w1 response w2 r w3 :
    size_of (req_headers request) = Returned n ->
    MetricsMiddleware.entry cfg request w = (Returned (clock w (ticks w)), w1) ->
    call_next cfg d request w1 = (Returned response, w2) ->
    MetricsMiddleware.resume cfg request (clock w (ticks w)) response w2
      = (r, w3) ->
    metrics_run cfg request d w r w3.

(** The events one request leaves, by the way its processing ends *)
Inductive metrics_trace (cfg : Settings) (request : Request) (t0 : Z)
  : result Response -> list Event -> Prop :=
| trace_bad_request e :
    size_of (req_headers request) = Raised e ->
    metrics_trace cfg request t0 (Raised e)
      [EvClock t0; EvGaugeInc [SERVICE_NAME cfg]]
| trace_downstream_raised n logs e :
    size_of (req_headers request) = Returned n ->
    Forall is_logging_event logs ->
    metrics_trace cfg request t0 (Raised e)
      ([EvClock t0; EvGaugeInc [SERVICE_NAME cfg]]
       ++ size_events H_http_request_size (request_labels cfg request) n
       ++ EvCallNext request :: logs)
| trace_bad_response n logs response t1 e :
    size_of (req_headers request) = Returned n ->
    Forall is_logging_event logs ->
    size_of (headers response) = Raised e ->
    metrics_trace cfg request t0 (Raised e)
      ([EvClock t0; EvGaugeInc [SERVICE_NAME cfg]]
       ++ size_events H_http_request_size (request_labels cfg request) n
       ++ EvCallNext request :: logs ++ [EvClock t1])
| trace_completed n logs response t1 m :
    size_of (req_headers request) = Returned n ->
    Forall is_logging_event logs ->
    size_of (headers response) = Returned m ->
    metrics_trace cfg request t0 (Returned response)
      ([EvClock t0; EvGaugeInc [SERVICE_NAME cfg]]
       ++ size_events H_http_request_size (request_labels cfg request) n
       ++ EvCallNext request :: logs
       ++ [EvClock t1;
           EvCounterInc (response_labels cfg request response) 1;
           EvObserve H_http_request_duration
             (response_labels cfg request response) (t1 - t0)]
       ++ size_events H_http_response_size
            (response_labels cfg request response) m
       ++ [EvGaugeDec [SERVICE_NAME cfg]]).

Definition labelled_by_path (request : Request) (ev : Event) : Prop :=
  endpoint_label ev = None \/ endpoint_label ev = Some (req_path request).

(** The world after a logging call whose [extra] is accepted *)
Definition logged (cfg : Settings) (site : CallSite) (level : Level)
    (msg : string) (extra : dict) (exc_info : option exn) (w : World) : World :=
  if isEnabledFor cfg level
  then after_emit (emitted_at cfg site level msg extra exc_info w) w
  else w.

Definition fresh_token (w : World) : string :=
  uuid.str (uuid.uuid4 (entropy w (draws w) mod 2 ^ 128)).

(** The token the middleware settles on, and the world once it is bound *)
Definition token_of (request : Request) (w : World) : string :=
  let header := headers_get "x-trace-id" (req_headers request) in
  if truthy header then default "" header else fresh_token w.

Definition bound (request : Request) (w : World) : World :=
  mk_world (clock w) (ticks w) (entropy w)
    (if truthy (headers_get "x-trace-id" (req_headers request))
     then draws w else S (draws w))
    (Some (token_of request w)) (stdout w) (registry w) (history w).

Definition incoming_extra (request : Request) : dict :=
  [("method", PStr (req_method request));
   ("path", PStr (req_path request));
   ("query_params", PStrDict (dict_of_pairs (req_query_params request)));
   ("client_ip", opt_str (fst <$> req_client request));
   ("user_agent", opt_str (headers_get "user-agent" (req_headers request)))].

Definition completed_extra (request : Request) (response : Response)
    (duration_ms : Z) : dict :=
  [("method", PStr (req_method request));
   ("path", PStr (req_path request));
   ("status_code", PInt (status_code response));
   ("duration_ms", PInt duration_ms)].

Definition incoming_site : CallSite := mk_site this_file 162 "dispatch".
Definition completed_site : CallSite := mk_site this_file 188 "dispatch".

(** Every way the logging middleware can run *)
Inductive logging_outcome (cfg : Settings) (request : Request) (d : Downstream)
    (w : World) : result Response -> World -> Prop :=
| logging_downstream_raised w1 e w2 :
    w1 = logged cfg incoming_site INFO "Incoming request"
           (incoming_extra request) None (after_clock (bound request w)) ->
    call_next cfg d request w1 = (Raised e, w2) ->
    logging_outcome cfg request d w (Raised e) w2
| logging_completed w1 response w2 :
    w1 = logged cfg incoming_site INFO "Incoming request"
           (incoming_extra request) None (after_clock (bound request w)) ->
    call_next cfg d request w1 = (Returned response, w2) ->
    logging_outcome cfg request d w
      (Returned (mk_response (status_code response)
                   (headers_set "X-Trace-ID" (token_of request w)
                      (headers response))))
      (logged cfg completed_site (severity (status_code response))
         "Request completed"
         (completed_extra request response
            ((clock w2 (ticks w2) - clock w (ticks w)) * 1000))
         None (after_clock w2)).

Definition written_under (cfg : Settings) (token : string) (w w' : World)
  : Prop :=
  trace_id_var w' = Some token
  /\ exists recs,
       stdout w' = (stdout w ++ recs)%list
       /\ Forall (fun e => em_output e
                           = render cfg (Some token) (em_record e)) recs.

Definition logged_records (cfg : Settings) (site : CallSite) (level : Level)
    (msg : string) (extra : dict) (exc_info : option exn) (w : World)
  : list Emitted :=
  if isEnabledFor cfg level
  then [emitted_at cfg site level msg extra exc_info w]
  else [].

Definition logged_events (cfg : Settings) (site : CallSite) (level : Level)
    (msg : string) (extra : dict) (exc_info : option exn) (w : World)
  : list Event :=
  if isEnabledFor cfg level
  then [EvClock (clock w (ticks w));
        EvEmit (emitted_at cfg site level msg extra exc_info w)]
  else [].

Definition merge_step (acc : dict) (kv : string * pyval) : dict :=
  if JsonFormatter.skipped (fst kv) then acc
  else dict_set (fst kv) (snd kv) acc.

Definition overridden (k : string) : bool :=
  in_strings k reserved_keys || String.eqb k "trace_id".

(** The decorator, on a coroutine function or a plain one, and the scoped
    timer *)
Inductive Helper :=
| Decorated (iscoroutine : bool)
| Scoped.

Definition instrument (cfg : Settings) (helper : Helper) (operation : string)
    (context : dict) {A} (func : M A) : M A :=
  match helper with
  | Decorated iscoroutine =>
      log_execution.decorator cfg operation context iscoroutine func
  | Scoped => Timer.scope cfg operation context func
  end.

Definition start_site (helper : Helper) : CallSite :=
  match helper with
  | Decorated true => log_execution.at_debug log_execution.async_sites
  | Decorated false => log_execution.at_debug log_execution.sync_sites
  | Scoped => mk_site this_file 320 "__enter__"
  end.

Definition error_site (helper : Helper) : CallSite :=
  match helper with
  | Decorated true => log_execution.at_error log_execution.async_sites
  | Decorated false => log_execution.at_error log_execution.sync_sites
  | Scoped => mk_site this_file 336 "__exit__"
  end.

Definition start_extra (helper : Helper) (operation : string) (context : dict)
  : dict :=
  match helper with
  | Decorated _ => dict_update context [("operation", PStr operation)]
  | Scoped => context
  end.

Definition failure_extra (base : dict) (e : exn) (duration_ms : Z) : dict :=
  dict_update base
    [("duration_ms", PInt duration_ms);
     ("status", PStr "error");
     ("error", PStr (exn_str e));
     ("error_type", PStr (exn_type e))].

(** The exceptions for which the helper has a handler: [except Exception]
    in the decorator, any exception in [__exit__]. *)
Definition handles (helper : Helper) (e : exn) : bool :=
  match helper with
  | Decorated _ => exn_is_Exception e
  | Scoped => true
  end.

Definition started (cfg : Settings) (helper : Helper) (operation : string)
    (context : dict) (w : World) : World :=
  logged cfg (start_site helper) DEBUG ("Starting " ++ operation)
    (start_extra helper operation context) None (after_clock w).

(** What a task holds of the active-requests gauge: one while it is in
    flight, and one for good once it has ended in an exception *)
Definition occupies (t : Task) : Z :=
  match t with
  | Ready _ _ => 0
  | Suspended _ _ _ => 1
  | Resumable _ _ _ => 1
  | Finished _ (Returned _) => 0
  | Finished _ (Raised _) => 1
  end.

Fixpoint occupancy (tasks : list Task) : Z :=
  match tasks with
  | [] => 0
  | t :: tasks' => occupies t + occupancy tasks'
  end.

Definition observations (h : HistogramName) (w : World) (labels : list string)
  : list Z :=
  child_observations (histogram h (registry w)) labels.

Definition info_site (helper : Helper) : CallSite :=
  match helper with
  | Decorated true => log_execution.at_info log_execution.async_sites
  | Decorated false => log_execution.at_info log_execution.sync_sites
  | Scoped => mk_site this_file 327 "__exit__"
  end.

Definition success_extra (base : dict) (duration_ms : Z) : dict :=
  dict_update base
    [("duration_ms", PInt duration_ms); ("status", PStr "success")].

Definition trace_headers (h : Headers) : Headers :=
  List.filter (fun kv => String.eqb "x-trace-id" (fst kv)) h.

Definition reg_extends (r r' : Registry) : Prop :=
  forall h labels,
    exists added,
      child_observations (histogram h r') labels
      = (child_observations (histogram h r) labels ++ added)%list.

(** * Sample data *)

Definition sample_strftime (fmt : string) (t : Z) : string :=
  "2024-05-01 12:00:00".

Definition sample_production : Settings :=
  mk_settings "pluggedin-service" DEBUG "production" "1.0.0" sample_strftime.

Definition sample_development : Settings :=
  mk_settings "pluggedin-service" DEBUG "development" "1.0.0" sample_strftime.

Definition sample_world : World :=
  mk_world (fun n => 1700000000 + Z.of_nat n) 0
    (fun n => 212676587910982164530496490635116203736 + Z.of_nat n) 0
    None [] empty_registry [].

Definition sample_request : Request :=
  mk_request "GET" "/api/users/42" (Some "/api/users/{id}") [] None
    [("x-trace-id", "abc-123"); ("content-length", "12")].

Definition sample_untraced_request : Request :=
  mk_request "GET" "/api/users" (Some "/api/users") [] None [].

Definition sample_malformed_request : Request :=
  mk_request "POST" "/api/users" (Some "/api/users") [] None
    [("content-length", "abc")].

Definition sample_response : Response :=
  mk_response 200 [("content-length", "5")].

Definition sample_ok : Downstream :=
  mk_downstream [] (Returned sample_response).

Definition sample_unavailable : Downstream :=
  mk_downstream [] (Returned (mk_response 503 [])).

Definition sample_site : CallSite := mk_site "app.py" 10 "handler".

Definition sample_error : exn := mk_exn "RuntimeError" "boom" true.

Definition sample_failing : Downstream :=
  mk_downstream [] (Raised sample_error).

Definition sample_interrupt : exn := mk_exn "KeyboardInterrupt" "" false.

Definition sample_tasks : list Task :=
  [Ready sample_request sample_ok; Ready sample_request sample_failing;
   Ready sample_malformed_request sample_ok].

(** * Properties *)

(** ** Dictionaries *)

Lemma dict_get_set_eq {V} (k : string) (v : V) d :
  dict_get k (dict_set k v d) = Some v.
Proof.
  induction d as [|[k' v'] d IH]; simpl.
  - by rewrite String.eqb_refl.
  - destruct (String.eqb k k') eqn:E; simpl; rewrite ?String.eqb_refl, ?E; done.
Qed.

Lemma dict_get_set_ne {V} (k k' : string) (v : V) d :
  k <> k' -> dict_get k (dict_set k' v d) = dict_get k d.
Proof.
  intros Hne. induction d as [|[k2 v2] d IH]; simpl.
  - apply String.eqb_neq in Hne. by rewrite Hne.
  - destruct (String.eqb k' k2) eqn:E; simpl.
    + apply String.eqb_eq in E. subst k2.
      apply String.eqb_neq in Hne. by rewrite Hne.
    + by rewrite IH.
Qed.

Lemma dict_get_set {V} (k k' : string) (v : V) d :
  dict_get k (dict_set k' v d) = if String.eqb k k' then Some v else dict_get k d.
Proof.
  destruct (String.eqb k k') eqn:E.
  - apply String.eqb_eq in E. subst. apply dict_get_set_eq.
  - apply String.eqb_neq in E. by apply dict_get_set_ne.
Qed.

Lemma dict_keys_set_subset {V} (k : string) (v : V) d k' :
  In k' (dict_keys (dict_set k v d)) -> k' = k \/ In k' (dict_keys d).
Proof.
  induction d as [|[k2 v2] d IH]; simpl.
  - intuition.
  - destruct (String.eqb k k2) eqn:E; simpl.
    + apply String.eqb_eq in E. subst. intuition.
    + intros [->|H]; [by right; left|]. destruct (IH H); intuition.
Qed.

Lemma find_none_iff {A} (f : A -> bool) l :
  find f l = None <-> forall x, In x l -> f x = false.
Proof.
  split.
  - intros H x Hx. eapply find_none in H; eauto.
  - induction l as [|a l IH]; simpl; [done|].
    intros H. rewrite (H a) by auto. apply IH. intros x Hx. apply H. auto.
Qed.

Lemma accepted_set k v d :
  extra_clash k = false -> accepted d -> accepted (dict_set k v d).
Proof.
  unfold accepted. rewrite !find_none_iff. intros Hk Hd x Hx.
  apply dict_keys_set_subset in Hx as [->|Hx]; auto.
Qed.

(** ** What the logger writes *)

Ltac mrun :=
  cbv [bind ret raise when of_result time_time urandom16 write_stdout
       record_event set_registry get_registry trace_id_var_get
       trace_id_var_set set_trace_id get_trace_id];
  cbn [fst snd clock ticks entropy draws trace_id_var stdout registry history].

Lemma formatter_eq cfg record w :
  formatter cfg record w = (Returned (render cfg (trace_id_var w) record), w).
Proof.
  unfold formatter, render.
  destruct (String.eqb (ENVIRONMENT cfg) "development"); reflexivity.
Qed.

Lemma logger_log_eq cfg site level msg extra exc_info w :
  logger_log cfg site level msg extra exc_info w =
  if isEnabledFor cfg level then
    match find extra_clash (dict_keys extra) with
    | Some k => (Raised (overwrite_error k), after_clock w)
    | None =>
        (Returned tt,
         after_emit (emitted_at cfg site level msg extra exc_info w) w)
    end
  else (Returned tt, w).
Proof.
  unfold logger_log. destruct (isEnabledFor cfg level); [|reflexivity].
  unfold makeRecord.
  destruct (find extra_clash (dict_keys extra)); [reflexivity|].
  mrun. rewrite formatter_eq. mrun.
  unfold after_emit, emitted_at, record_at.
  rewrite <- app_assoc. reflexivity.
Qed.

Lemma logger_log_accepted cfg site level msg extra exc_info w :
  accepted extra ->
  logger_log cfg site level msg extra exc_info w =
  if isEnabledFor cfg level then
    (Returned tt, after_emit (emitted_at cfg site level msg extra exc_info w) w)
  else (Returned tt, w).
Proof. intros H. rewrite logger_log_eq. unfold accepted in H. by rewrite H. Qed.

Lemma logging_run_trans cfg w1 w2 w3 :
  logging_run cfg w1 w2 -> logging_run cfg w2 w3 -> logging_run cfg w1 w3.
Proof. intros H12 H23. induction H23; eauto using logging_run. Qed.

Lemma logging_run_frame cfg w w' :
  logging_run cfg w w' ->
  clock w' = clock w /\ entropy w' = entropy w /\ draws w' = draws w
  /\ trace_id_var w' = trace_id_var w /\ registry w' = registry w.
Proof. induction 1; simpl; intuition. Qed.

Lemma logging_run_history cfg w w' :
  logging_run cfg w w' ->
  exists evs, history w' = (history w ++ evs)%list /\ Forall is_logging_event evs.
Proof.
  induction 1 as [w|w w' _ (evs & E & Hevs)|w w' record _ (evs & E & Hevs)];
    simpl; rewrite ?E.
  - exists []. by rewrite app_nil_r.
  - exists (evs ++ [EvClock (clock w' (ticks w'))])%list.
    rewrite app_assoc. split; [done|].
    apply Forall_app; split; [done|]. by repeat constructor.
  - eexists (evs ++ [_; _])%list.
    rewrite app_assoc. split; [done|].
    apply Forall_app; split; [done|]. by repeat constructor.
Qed.

Lemma logging_run_stdout cfg w w' :
  logging_run cfg w w' ->
  exists recs,
    stdout w' = (stdout w ++ recs)%list
    /\ Forall (fun e => em_output e = render cfg (trace_id_var w) (em_record e))
         recs.
Proof.
  induction 1 as [w|w w' _ (recs & E & Hrecs)|w w' record H (recs & E & Hrecs)];
    simpl; rewrite ?E.
  - exists []. by rewrite app_nil_r.
  - by exists recs.
  - eexists (recs ++ [_])%list. rewrite app_assoc. split; [done|].
    apply Forall_app; split; [done|]. constructor; [|constructor]. simpl.
    apply logging_run_frame in H as (_ & _ & _ & -> & _). done.
Qed.

Lemma logger_log_run cfg site level msg extra exc_info w :
  logging_run cfg w (snd (logger_log cfg site level msg extra exc_info w)).
Proof.
  rewrite logger_log_eq. destruct (isEnabledFor cfg level); simpl.
  - destruct (find extra_clash (dict_keys extra)); simpl.
    + apply logging_clock, logging_none.
    + unfold emitted_at. apply (logging_emit cfg w w), logging_none.
  - apply logging_none.
Qed.

Lemma emit_all_run cfg calls w :
  logging_run cfg w (snd (emit_all cfg calls w)).
Proof.
  revert w. induction calls as [|c calls IH]; intros w; simpl.
  - apply logging_none.
  - unfold bind.
    pose proof (logger_log_run cfg (lc_site c) (lc_level c) (lc_msg c)
                  (lc_extra c) (lc_exc_info c) w) as H.
    destruct (logger_log _ _ _ _ _ _ w) as [[[]|e] w1]; simpl in *.
    + eapply logging_run_trans; [exact H|apply IH].
    + exact H.
Qed.

(** The downstream handler: its invocation is recorded, it logs, and it
    hands back its outcome unless one of its own logging calls raised. *)
Lemma call_next_run cfg d request w :
  logging_run cfg (after_event (EvCallNext request) w)
    (snd (call_next cfg d request w)).
Proof.
  unfold call_next. mrun. fold (after_event (EvCallNext request) w).
  pose proof (emit_all_run cfg (ds_logs d) (after_event (EvCallNext request) w)) as H.
  destruct (emit_all _ _ _) as [[[]|e] w1]; simpl in *; [|exact H].
  destruct (ds_outcome d); exact H.
Qed.

Lemma call_next_returned cfg d request w response w' :
  call_next cfg d request w = (Returned response, w') ->
  ds_outcome d = Returned response.
Proof.
  unfold call_next. mrun.
  destruct (emit_all _ _ _) as [[[]|e] w1]; [|discriminate].
  destruct (ds_outcome d); congruence.
Qed.

(** ** The metrics middleware, segment by segment *)

Lemma content_length_eq h w : content_length h w = (size_of h, w).
Proof.
  unfold content_length, size_of.
  destruct (headers_get "content-length" h) as [s|]; [|reflexivity].
  destruct (parse_int s); reflexivity.
Qed.

Lemma entry_eq cfg request w :
  MetricsMiddleware.entry cfg request w =
  let t0 := clock w (ticks w) in
  let svc := [SERVICE_NAME cfg] in
  match size_of (req_headers request) with
  | Returned n =>
      (Returned t0,
       recorded
         (fun r => reg_size H_http_request_size (request_labels cfg request) n
                     (reg_gauge svc 1 r))
         ([EvClock t0; EvGaugeInc svc]
          ++ size_events H_http_request_size (request_labels cfg request) n)
         w)
  | Raised e =>
      (Raised e, recorded (reg_gauge svc 1) [EvClock t0; EvGaugeInc svc] w)
  end.
Proof.
  unfold MetricsMiddleware.entry, inc_active_requests, observe.
  mrun. rewrite content_length_eq.
  destruct (size_of (req_headers request)) as [n|e]; cbn zeta.
  - unfold recorded, reg_size, size_events, request_labels.
    destruct (0 <? n)%Z; mrun; rewrite <- ?app_assoc; reflexivity.
  - unfold recorded. rewrite <- ?app_assoc. reflexivity.
Qed.

Lemma resume_eq cfg request t0 response w :
  MetricsMiddleware.resume cfg request t0 response w =
  let t1 := clock w (ticks w) in
  let svc := [SERVICE_NAME cfg] in
  let labels := response_labels cfg request response in
  match size_of (headers response) with
  | Returned n =>
      (Returned response,
       recorded
         (fun r =>
            reg_gauge svc (-1)
              (reg_size H_http_response_size labels n
                 (reg_observe H_http_request_duration labels (t1 - t0)
                    (reg_count labels 1 r))))
         ([EvClock t1; EvCounterInc labels 1;
           EvObserve H_http_request_duration labels (t1 - t0)]
          ++ size_events H_http_response_size labels n
          ++ [EvGaugeDec svc])
         w)
  | Raised e => (Raised e, recorded (fun r => r) [EvClock t1] w)
  end.
Proof.
  unfold MetricsMiddleware.resume, inc_http_requests_total,
    dec_active_requests, observe.
  mrun. rewrite content_length_eq.
  destruct (size_of (headers response)) as [n|e]; cbn zeta.
  - unfold recorded, reg_size, size_events, response_labels.
    change (1 <? 0)%Z with false. cbv iota.
    destruct (0 <? n)%Z; mrun; rewrite <- ?app_assoc; reflexivity.
  - reflexivity.
Qed.

Lemma dispatch_split cfg request next w :
  MetricsMiddleware.dispatch cfg request next w =
  (let* start_time := MetricsMiddleware.entry cfg request in
   let* response := next request in
   MetricsMiddleware.resume cfg request start_time response) w.
Proof.
  unfold MetricsMiddleware.dispatch, MetricsMiddleware.entry,
    MetricsMiddleware.resume, bind.
  destruct (time_time w) as [[t|e] w1]; [|reflexivity].
  destruct (inc_active_requests _ w1) as [[[]|e] w2]; [|reflexivity].
  destruct (content_length _ w2) as [[n|e] w3]; [|reflexivity].
  destruct (when _ _ w3) as [[[]|e] w4]; [|reflexivity].
  reflexivity.
Qed.

Lemma child_value_add_to_eq (labels : list string) (amount : Z)
    (m : gmap (list string) Z) :
  child_value (add_to labels amount m) labels = child_value m labels + amount.
Proof. unfold child_value, add_to. by rewrite lookup_insert_eq. Qed.

Lemma child_value_add_to_ne (labels labels' : list string) (amount : Z)
    (m : gmap (list string) Z) :
  labels <> labels' ->
  child_value (add_to labels amount m) labels' = child_value m labels'.
Proof. intros H. unfold child_value, add_to. by rewrite lookup_insert_ne. Qed.

Lemma active_requests_reg_observe h labels v r :
  active_requests (reg_observe h labels v r) = active_requests r.
Proof. by destruct h. Qed.

Lemma active_requests_reg_size h labels n r :
  active_requests (reg_size h labels n r) = active_requests r.
Proof.
  unfold reg_size. destruct (0 <? n)%Z; [apply active_requests_reg_observe|done].
Qed.

Lemma http_requests_total_reg_observe h labels v r :
  http_requests_total (reg_observe h labels v r) = http_requests_total r.
Proof. by destruct h. Qed.

Lemma http_requests_total_reg_size h labels n r :
  http_requests_total (reg_size h labels n r) = http_requests_total r.
Proof.
  unfold reg_size.
  destruct (0 <? n)%Z; [apply http_requests_total_reg_observe|done].
Qed.

Lemma new_events_app w w' evs :
  history w' = (history w ++ evs)%list -> new_events w w' = evs.
Proof.
  intros H. unfold new_events. rewrite H.
  rewrite skipn_app, skipn_all, Nat.sub_diag. reflexivity.
Qed.

Lemma new_records_app w w' recs :
  stdout w' = (stdout w ++ recs)%list -> new_records w w' = recs.
Proof.
  intros H. unfold new_records. rewrite H.
  rewrite skipn_app, skipn_all, Nat.sub_diag. reflexivity.
Qed.

(** The downstream handler leaves the registry alone and adds its
    invocation and logging events to the history. *)
Lemma call_next_effect cfg d request w r w' :
  call_next cfg d request w = (r, w') ->
  registry w' = registry w
  /\ exists evs,
       history w' = (history w ++ EvCallNext request :: evs)%list
       /\ Forall is_logging_event evs.
Proof.
  intros H. pose proof (call_next_run cfg d request w) as Hrun.
  rewrite H in Hrun. simpl in Hrun. split.
  - by apply logging_run_frame in Hrun as (_ & _ & _ & _ & ->).
  - apply logging_run_history in Hrun as (evs & E & Hevs).
    exists evs. split; [|done]. rewrite E. simpl. by rewrite <- app_assoc.
Qed.

Lemma dispatch_runs cfg request d w r w' :
  MetricsMiddleware.dispatch cfg request (call_next cfg d) w = (r, w') ->
  metrics_run cfg request d w r w'.
Proof.
  rewrite dispatch_split. unfold bind.
  pose proof (entry_eq cfg request w) as He. cbn zeta in He.
  destruct (size_of (req_headers request)) as [n|e] eqn:Hsize; rewrite He.
  - destruct (call_next cfg d request _) as [[response|e] w2] eqn:Hnext.
    + intros Hres. eapply run_resumed; eauto.
    + intros [= <- <-]. eapply run_downstream_raised; eauto.
  - intros [= <- <-]. by apply run_bad_request.
Qed.

Lemma entry_returned cfg request w t w1 :
  MetricsMiddleware.entry cfg request w = (Returned t, w1) ->
  exists n,
    size_of (req_headers request) = Returned n
    /\ w1 = recorded
              (fun r => reg_size H_http_request_size
                          (request_labels cfg request) n
                          (reg_gauge [SERVICE_NAME cfg] 1 r))
              ([EvClock (clock w (ticks w)); EvGaugeInc [SERVICE_NAME cfg]]
               ++ size_events H_http_request_size
                    (request_labels cfg request) n)
              w.
Proof.
  rewrite entry_eq. cbn zeta.
  destruct (size_of (req_headers request)) as [n|e]; [|discriminate].
  intros [= _ <-]. by exists n.
Qed.

Lemma dispatch_trace cfg request d w r w' :
  MetricsMiddleware.dispatch cfg request (call_next cfg d) w = (r, w') ->
  metrics_trace cfg request (clock w (ticks w)) r (new_events w w').
Proof.
  intros H. apply dispatch_runs in H.
  destruct H as [e He|n w1 e w2 Hn Hentry Hnext|n w1 response w2 r w3 Hn Hentry Hnext Hres].
  - rewrite (new_events_app w _ [EvClock (clock w (ticks w));
                                 EvGaugeInc [SERVICE_NAME cfg]]) by done.
    by constructor.
  - apply entry_returned in Hentry as (n' & Hn' & ->).
    assert (n' = n) as -> by congruence.
    apply call_next_effect in Hnext as (_ & logs & Hh & Hlogs).
    erewrite new_events_app; [by apply trace_downstream_raised|].
    rewrite Hh. simpl. by rewrite <- !app_assoc.
  - apply entry_returned in Hentry as (n' & Hn' & ->).
    assert (n' = n) as -> by congruence.
    apply call_next_effect in Hnext as (_ & logs & Hh & Hlogs).
    rewrite resume_eq in Hres. cbn zeta in Hres.
    destruct (size_of (headers response)) as [m|e] eqn:Hm;
      injection Hres as <- <-.
    + erewrite new_events_app; [by eapply trace_completed|].
      simpl. rewrite Hh. simpl. rewrite <- ?app_assoc. simpl.
      rewrite <- ?app_assoc. done.
    + erewrite new_events_app; [by eapply trace_bad_response|].
      simpl. rewrite Hh. simpl. rewrite <- ?app_assoc. simpl.
      rewrite <- ?app_assoc. done.
Qed.

(** ** The active-requests gauge *)

Lemma gauge_recorded f evs w labels :
  gauge (recorded f evs w) labels
  = child_value (active_requests (f (registry w))) labels.
Proof. reflexivity. Qed.

Lemma call_next_gauge cfg d request w r w' labels :
  call_next cfg d request w = (r, w') -> gauge w' labels = gauge w labels.
Proof.
  intros H. apply call_next_effect in H as (Hreg & _).
  unfold gauge. by rewrite Hreg.
Qed.

Lemma gauge_after_entry cfg request w t w1 :
  MetricsMiddleware.entry cfg request w = (Returned t, w1) ->
  gauge w1 [SERVICE_NAME cfg] = gauge w [SERVICE_NAME cfg] + 1.
Proof.
  intros H. apply entry_returned in H as (n & _ & ->).
  rewrite gauge_recorded, active_requests_reg_size. simpl.
  apply child_value_add_to_eq.
Qed.

(** C1 (defect of the code).  The specification asks that the
    active-requests gauge be back at its pre-request value also when the
    downstream handler raises.  The code decrements the gauge only on the
    path that follows a returned response: whenever [dispatch] ends in an
    exception, the gauge of the service is left one above its pre-request
    value. *)
Theorem C1_gauge_left_incremented_on_raise cfg request d w e w' :
  MetricsMiddleware.dispatch cfg request (call_next cfg d) w = (Raised e, w') ->
  gauge w' [SERVICE_NAME cfg] = gauge w [SERVICE_NAME cfg] + 1.
Proof.
  intros H. apply dispatch_runs in H.
  inversion H as [e' He|n w1 e' w2 Hn Hentry Hnext|n w1 response w2 r w3 Hn Hentry Hnext Hres];
    subst.
  - rewrite gauge_recorded. simpl. apply child_value_add_to_eq.
  - erewrite call_next_gauge by eassumption. by eapply gauge_after_entry.
  - rewrite resume_eq in Hres. cbn zeta in Hres.
    destruct (size_of (headers response)); [discriminate|].
    injection Hres as _ <-. rewrite gauge_recorded. simpl.
    erewrite <- gauge_after_entry by eassumption.
    by eapply call_next_gauge.
Qed.

(** On the path the code does cover, a returned response, the gauge is back
    at its pre-request value. *)
Lemma gauge_restored_on_return cfg request d w response w' :
  MetricsMiddleware.dispatch cfg request (call_next cfg d) w
    = (Returned response, w') ->
  gauge w' [SERVICE_NAME cfg] = gauge w [SERVICE_NAME cfg].
Proof.
  intros H. apply dispatch_runs in H.
  inversion H as [| |n w1 response' w2 r w3 Hn Hentry Hnext Hres]; subst.
  rewrite resume_eq in Hres. cbn zeta in Hres.
  destruct (size_of (headers response')); [|discriminate].
  injection Hres as _ <-. rewrite gauge_recorded. simpl.
  rewrite child_value_add_to_eq, active_requests_reg_size. simpl.
  apply gauge_after_entry in Hentry.
  apply (call_next_gauge _ _ _ _ _ _ [SERVICE_NAME cfg]) in Hnext.
  unfold gauge in *. lia.
Qed.

(** The sibling decorator of the same file does release on every exit:
    [track_time] records its observation whether the function returns or
    raises. *)
Lemma track_time_observes_on_every_exit metric labels {A} (func : M A) w
    r w1 :
  func (after_clock w) = (r, w1) ->
  track_time.wrapper metric labels func w
  = (r, recorded (reg_observe metric labels (clock w1 (ticks w1) - clock w (ticks w)))
          [EvClock (clock w1 (ticks w1));
           EvObserve metric labels (clock w1 (ticks w1) - clock w (ticks w))]
          w1).
Proof.
  intros H. unfold track_time.wrapper, try_finally, observe. mrun.
  fold (after_clock w). rewrite H. unfold recorded.
  rewrite <- app_assoc. reflexivity.
Qed.

(** ** Content length and size observations *)

Lemma positive_size_iff h :
  positive_size h <-> exists n, size_of h = Returned n /\ 0 < n.
Proof.
  unfold positive_size, size_of. split.
  - intros (s & n & -> & -> & Hn). by exists n.
  - intros (n & H & Hn).
    destruct (headers_get "content-length" h) as [s|].
    + destruct (parse_int s) as [n'|] eqn:E; [|discriminate].
      injection H as ->. by exists s, n.
    + injection H as <-. lia.
Qed.

Lemma in_size_events ev h labels n :
  In ev (size_events h labels n) <-> ev = EvObserve h labels n /\ 0 < n.
Proof.
  unfold size_events. destruct (0 <? n)%Z eqn:E; simpl.
  - apply Z.ltb_lt in E. intuition.
  - apply Z.ltb_ge in E. intuition lia.
Qed.

Lemma logging_event_in logs ev :
  Forall is_logging_event logs -> In ev logs -> is_logging_event ev.
Proof. rewrite List.Forall_forall. auto. Qed.

(** Membership in a trace, case by case *)
Ltac in_trace H :=
  repeat
    match type of H with
    | In _ (_ ++ _)%list => apply in_app_or in H as [H|H]
    | In _ (_ :: _) => destruct H as [H|H]
    | In _ [] => destruct H
    | In _ (size_events _ _ _) => apply in_size_events in H as [H ?]
    end.

Ltac not_logging H Hlogs :=
  let F := fresh in
  pose proof (logging_event_in _ _ Hlogs H) as F; simpl in F; contradiction.

(** C5 (defect of the code).  The specification asks that the middleware
    never raise an exception of its own, also for a malformed
    content-length header.  In the code [int()] is applied to the header as
    it stands: for a request whose content-length does not parse the
    middleware raises [ValueError] itself, and the downstream handler is
    never invoked. *)
Theorem C5_malformed_content_length_raises cfg request d w s :
  headers_get "content-length" (req_headers request) = Some s ->
  parse_int s = None ->
  let run := MetricsMiddleware.dispatch cfg request (call_next cfg d) w in
  fst run = Raised (invalid_literal s)
  /\ ~ In (EvCallNext request) (new_events w (snd run)).
Proof.
  intros Hs Hparse run.
  assert (size_of (req_headers request) = Raised (invalid_literal s)) as Hsize
    by (unfold size_of; by rewrite Hs, Hparse).
  destruct run as [r w'] eqn:Hrun. simpl.
  apply dispatch_trace in Hrun.
  inversion Hrun as [e He| | |]; subst; try congruence.
  split; [congruence|]. intros Hin. in_trace Hin; discriminate.
Qed.

(** The same happens after a successful handler: a response whose
    content-length does not parse turns the returned response into a
    [ValueError]. *)
Lemma malformed_response_length_raises cfg request d w response s :
  (forall e, size_of (req_headers request) <> Raised e) ->
  ds_logs d = [] ->
  ds_outcome d = Returned response ->
  headers_get "content-length" (headers response) = Some s ->
  parse_int s = None ->
  fst (MetricsMiddleware.dispatch cfg request (call_next cfg d) w)
  = Raised (invalid_literal s).
Proof.
  intros Hreq Hlogs Hout Hs Hparse.
  rewrite dispatch_split. unfold bind. rewrite entry_eq. cbn zeta.
  destruct (size_of (req_headers request)) as [n|e] eqn:Hn;
    [|by destruct (Hreq e)].
  unfold call_next at 1. rewrite Hlogs, Hout. cbn [emit_all]. mrun.
  rewrite resume_eq. cbn zeta. unfold size_of at 1. by rewrite Hs, Hparse.
Qed.


(** ** The endpoint label *)

Lemma run_result {A} (run : result A * World) (r : result A) :
  fst run = r -> run = (r, snd run).
Proof. intros <-. by destruct run. Qed.

Lemma C1_witness :
  gauge
    (snd (MetricsMiddleware.dispatch sample_production sample_request
            (call_next sample_production sample_failing) sample_world))
    ["pluggedin-service"]
  = gauge sample_world ["pluggedin-service"] + 1.
Proof.
  apply (C1_gauge_left_incremented_on_raise sample_production sample_request
           sample_failing sample_world sample_error).
  apply run_result. vm_compute. reflexivity.
Defined.

Lemma C5_witness :
  fst (MetricsMiddleware.dispatch sample_production sample_malformed_request
         (call_next sample_production sample_ok) sample_world)
  = Raised (invalid_literal "abc").
Proof.
  apply (C5_malformed_content_length_raises sample_production
           sample_malformed_request sample_ok sample_world "abc");
    reflexivity.
Defined.

Lemma endpoint_label_logging ev :
  is_logging_event ev -> endpoint_label ev = None.
Proof. by destruct ev. Qed.

Lemma labelled_by_path_logs request logs :
  Forall is_logging_event logs -> Forall (labelled_by_path request) logs.
Proof.
  intros Hlogs. eapply List.Forall_impl; [|exact Hlogs].
  intros ev H. left. by apply endpoint_label_logging.
Qed.

Lemma labelled_by_path_sizes request h labels n :
  labels !! 1%nat = Some (req_path request) ->
  Forall (labelled_by_path request) (size_events h labels n).
Proof.
  intros H. unfold size_events.
  destruct (0 <? n)%Z; [|constructor].
  constructor; [|constructor]. right. exact H.
Qed.

(** C4 (as the code has it).  The endpoint label of the request-count,
    duration and size series is the raw path of the request,
    [request.url.path], whatever route matched. *)
Theorem C4_endpoint_label_is_raw_path cfg request d w :
  Forall (labelled_by_path request)
    (new_events w
       (snd (MetricsMiddleware.dispatch cfg request (call_next cfg d) w))).
Proof.
  destruct (MetricsMiddleware.dispatch _ _ _ w) as [r w'] eqn:Hrun. simpl.
  apply dispatch_trace in Hrun.
  inversion Hrun as [e He|n logs e Hn Hlogs|n logs response t1 e Hn Hlogs Hm
                    |n logs response t1 m Hn Hlogs Hm]; subst;
    repeat first [ apply List.Forall_nil
                 | apply List.Forall_cons
                 | by apply labelled_by_path_logs
                 | by apply labelled_by_path_sizes
                 | apply List.Forall_app; split ];
    try (by left); try (by right).
Qed.

(** C4 as the specification states it fails: a request for [/api/users/42] matched by
    the route [/api/users/{id}] is counted under [/api/users/42]. *)
Lemma C4_counterexample :
  ~ (forall ev label,
       In ev (new_events sample_world
                (snd (MetricsMiddleware.dispatch sample_production
                        sample_request
                        (call_next sample_production sample_ok) sample_world))) ->
       endpoint_label ev = Some label ->
       req_route sample_request = Some label).
Proof.
  intros H.
  specialize (H (EvCounterInc ["GET"; "/api/users/42"; "200"; "pluggedin-service"] 1)
                "/api/users/42").
  assert (req_route sample_request = Some "/api/users/42") as E.
  { apply H; [|reflexivity].
    vm_compute. do 5 right. left. reflexivity. }
  discriminate E.
Qed.

(** ** Counters under interleaving *)

Lemma counter_after_inc w op labels :
  counter (after_inc w op) labels
  = counter w labels
    + (if bool_decide (fst op = labels) && (0 <=? snd op)%Z then snd op else 0).
Proof.
  destruct op as [l amount]. unfold after_inc, inc_http_requests_total. simpl.
  destruct (amount <? 0)%Z eqn:E.
  - apply Z.ltb_lt in E. assert ((0 <=? amount)%Z = false) as ->
      by (apply Z.leb_gt; lia).
    rewrite andb_false_r. simpl. unfold raise. simpl. lia.
  - apply Z.ltb_ge in E. assert ((0 <=? amount)%Z = true) as ->
      by (apply Z.leb_le; lia).
    rewrite andb_true_r. mrun. unfold counter. simpl.
    case_bool_decide as Hl.
    + subst. apply child_value_add_to_eq.
    + rewrite child_value_add_to_ne by done. lia.
Qed.



Lemma counter_recorded f evs w labels :
  counter (recorded f evs w) labels
  = child_value (http_requests_total (f (registry w))) labels.
Proof. reflexivity. Qed.

Lemma step_counter cfg t w t' w' labels :
  step cfg t w = (t', w') ->
  counter w' labels - (if counted_as cfg labels t' then 1 else 0)
  = counter w labels - (if counted_as cfg labels t then 1 else 0).
Proof.
  destruct t as [request d|request t0 d|request t0 response|request r]; simpl.
  - rewrite entry_eq. cbn zeta.
    destruct (size_of (req_headers request)); intros [= <- <-]; simpl;
      rewrite counter_recorded, ?http_requests_total_reg_size; reflexivity.
  - destruct (call_next cfg d request w) as [[response|e] w1] eqn:Hnext;
      intros [= <- <-]; simpl;
      apply call_next_effect in Hnext as (Hreg & _);
      unfold counter; by rewrite Hreg.
  - rewrite resume_eq. cbn zeta.
    destruct (size_of (headers response)); intros [= <- <-]; simpl.
    + rewrite counter_recorded. simpl.
      rewrite http_requests_total_reg_size. simpl. unfold response_labels. case_bool_decide as Hl.
      * subst. rewrite child_value_add_to_eq. unfold counter. lia.
      * rewrite child_value_add_to_ne by congruence. unfold counter. lia.
    + reflexivity.
  - by intros [= <- <-].
Qed.

Lemma count_as_insert cfg labels tasks i t t' :
  tasks !! i = Some t ->
  count_as cfg labels (<[i := t']> tasks)
  = count_as cfg labels tasks
    - (if counted_as cfg labels t then 1 else 0)
    + (if counted_as cfg labels t' then 1 else 0).
Proof.
  revert i. induction tasks as [|t0 tasks IH]; intros [|i] H; simpl in *;
    try discriminate.
  - injection H as ->. lia.
  - rewrite (IH i H). lia.
Qed.

(** Whatever the order in which the scheduler runs the segments of the
    request tasks, the counter moves in step with the finished requests:
    each child gains one per request counted under its labels. *)
Lemma counter_under_any_schedule cfg schedule tasks w tasks' w' labels :
  run_schedule cfg schedule tasks w = (tasks', w') ->
  counter w' labels - count_as cfg labels tasks'
  = counter w labels - count_as cfg labels tasks.
Proof.
  revert tasks w. induction schedule as [|i schedule IH]; intros tasks w; simpl.
  - by intros [= <- <-].
  - destruct (tasks !! i) as [t|] eqn:Hi; [|apply IH].
    destruct (step cfg t w) as [t1 w1] eqn:Hstep.
    intros H. apply IH in H. rewrite H.
    rewrite (count_as_insert _ _ _ _ _ _ Hi).
    pose proof (step_counter _ _ _ _ _ labels Hstep). lia.
Qed.

Lemma count_as_ready cfg labels tasks :
  Forall is_ready tasks -> count_as cfg labels tasks = 0.
Proof.
  induction 1 as [|t tasks Ht _ IH]; simpl; [done|].
  destruct t; try contradiction. simpl. lia.
Qed.

Lemma counter_counts_finished_requests cfg schedule tasks w tasks' w' labels :
  Forall is_ready tasks ->
  run_schedule cfg schedule tasks w = (tasks', w') ->
  counter w' labels = counter w labels + count_as cfg labels tasks'.
Proof.
  intros Hready H. apply (counter_under_any_schedule _ _ _ _ _ _ labels) in H.
  rewrite (count_as_ready _ _ _ Hready) in H. lia.
Qed.

(** ** The logging middleware, segment by segment *)

Lemma logger_log_logged cfg site level msg extra exc_info w :
  accepted extra ->
  logger_log cfg site level msg extra exc_info w
  = (Returned tt, logged cfg site level msg extra exc_info w).
Proof.
  intros H. rewrite logger_log_accepted by done. unfold logged.
  by destruct (isEnabledFor cfg level).
Qed.

Lemma incoming_extra_accepted request : accepted (incoming_extra request).
Proof. reflexivity. Qed.

Lemma completed_extra_accepted request response duration_ms :
  accepted (completed_extra request response duration_ms).
Proof. reflexivity. Qed.

Lemma logging_entry_eq cfg request w :
  LoggingSegments.entry cfg request w =
  (Returned (token_of request w, clock w (ticks w)),
   logged cfg incoming_site INFO "Incoming request" (incoming_extra request)
     None (after_clock (bound request w))).
Proof.
  unfold LoggingSegments.entry, generate_trace_id, logger_info.
  fold (incoming_extra request). fold incoming_site.
  unfold bound, token_of, fresh_token, after_clock.
  destruct (truthy (headers_get "x-trace-id" (req_headers request))); mrun;
    rewrite logger_log_logged by apply incoming_extra_accepted; reflexivity.
Qed.

Lemma logging_resume_eq cfg request token t0 response w :
  LoggingSegments.resume cfg request token t0 response w =
  (Returned (mk_response (status_code response)
               (headers_set "X-Trace-ID" token (headers response))),
   logged cfg completed_site (severity (status_code response))
     "Request completed"
     (completed_extra request response ((clock w (ticks w) - t0) * 1000))
     None (after_clock w)).
Proof.
  unfold LoggingSegments.resume. mrun.
  fold (severity (status_code response)). fold completed_site.
  fold (completed_extra request response ((clock w (ticks w) - t0) * 1000)).
  fold (after_clock w).
  rewrite logger_log_logged by apply completed_extra_accepted. reflexivity.
Qed.

Lemma logging_dispatch_split cfg request next w :
  LoggingMiddleware.dispatch cfg request next w =
  (let* entered := LoggingSegments.entry cfg request in
   let* response := next request in
   LoggingSegments.resume cfg request (fst entered) (snd entered) response) w.
Proof.
  unfold LoggingMiddleware.dispatch, LoggingSegments.entry,
    LoggingSegments.resume, bind.
  destruct ((if truthy (headers_get "x-trace-id" (req_headers request))
             then ret (default "" (headers_get "x-trace-id"
                                     (req_headers request)))
             else generate_trace_id) w) as [[token|e] w0]; [|reflexivity].
  destruct (set_trace_id _ w0) as [[[]|e] w1]; [|reflexivity].
  destruct (time_time w1) as [[t|e] w2]; [|reflexivity].
  destruct (logger_info _ _ _ _ w2) as [[[]|e] w3]; reflexivity.
Qed.

Lemma logging_dispatch_runs cfg request d w r w' :
  LoggingMiddleware.dispatch cfg request (call_next cfg d) w = (r, w') ->
  logging_outcome cfg request d w r w'.
Proof.
  rewrite logging_dispatch_split. unfold bind.
  rewrite logging_entry_eq. cbn [fst snd].
  destruct (call_next cfg d request _) as [[response|e] w2] eqn:Hnext.
  - rewrite logging_resume_eq. intros [= <- <-].
    by eapply logging_completed.
  - intros [= <- <-]. by eapply logging_downstream_raised.
Qed.

(** ** The trace token *)

Lemma headers_find_replace k v h :
  headers_find k (headers_replace k v h) = Some v.
Proof.
  induction h as [|[k' v'] h IH]; simpl.
  - by rewrite String.eqb_refl.
  - destruct (String.eqb k k') eqn:E; simpl.
    + by rewrite String.eqb_refl.
    + by rewrite E.
Qed.

Lemma headers_get_set key v h :
  headers_get key (headers_set key v h) = Some v.
Proof. apply headers_find_replace. Qed.

Lemma is_hex_digit d : uuid.is_hex (uuid.hex_digit d) = true.
Proof.
  unfold uuid.hex_digit. generalize (Z.to_nat d). intros n.
  do 16 (destruct n as [|n]; [reflexivity|]).
  destruct n; reflexivity.
Qed.

Lemma uuid_str_well_formed int : uuid.well_formed (uuid.str int) = true.
Proof.
  unfold uuid.well_formed, uuid.str, uuid.hex32.
  rewrite list_ascii_of_string_of_list_ascii.
  set (digit := fun k => uuid.hex_digit ((int / 16 ^ Z.of_nat k) mod 16)).
  assert (forall k, uuid.is_hex (digit k) = true) as Hdigit
    by (intros k; apply is_hex_digit).
  clearbody digit.
  cbn [rev seq map firstn skipn app List.app uuid.well_formed_from existsb
       Nat.eqb orb].
  rewrite !Hdigit. reflexivity.
Qed.

Lemma well_formed_nonempty s : uuid.well_formed s = true -> s <> "".
Proof. by intros H ->. Qed.

Lemma fresh_token_nonempty w : fresh_token w <> "".
Proof. apply well_formed_nonempty, uuid_str_well_formed. Qed.

Lemma truthy_spec v :
  truthy v = true <-> exists s, v = Some s /\ s <> "".
Proof.
  destruct v as [[|c s]|]; simpl; split; try discriminate.
  - intros (s & [= <-] & H). done.
  - intros _. by eexists.
  - intros (s' & [= <-] & H). done.
  - intros (s & [=] & _).
Qed.

Lemma token_of_nonempty request w : token_of request w <> "".
Proof.
  unfold token_of.
  destruct (truthy (headers_get "x-trace-id" (req_headers request))) eqn:E.
  - apply truthy_spec in E as (s & -> & Hs). done.
  - apply fresh_token_nonempty.
Qed.

Lemma json_trace_id_bound cfg token record :
  token <> "" ->
  dict_get "trace_id" (json_of cfg (Some token) record) = Some (PStr token).
Proof.
  intros Htoken. unfold json_of.
  destruct token as [|c s]; [done|]. cbn [truthy default].
  rewrite !dict_get_set_ne by discriminate. apply dict_get_set_eq.
Qed.

Lemma render_production cfg trace_id record :
  production cfg -> render cfg trace_id record = Json (json_of cfg trace_id record).
Proof.
  unfold production, render. intros H.
  apply String.eqb_neq in H. by rewrite H.
Qed.

Lemma render_development cfg trace_id record :
  ENVIRONMENT cfg = "development" ->
  render cfg trace_id record = Text (text_of cfg record).
Proof. unfold render. by intros ->. Qed.

Lemma written_under_refl cfg token w :
  trace_id_var w = Some token -> written_under cfg token w w.
Proof. intros H. split; [done|]. exists []. by rewrite app_nil_r. Qed.

Lemma written_under_trans cfg token w1 w2 w3 :
  written_under cfg token w1 w2 -> written_under cfg token w2 w3 ->
  written_under cfg token w1 w3.
Proof.
  intros (_ & recs1 & E1 & H1) (Ht & recs2 & E2 & H2). split; [done|].
  exists (recs1 ++ recs2)%list. rewrite E2, E1, app_assoc. split; [done|].
  by apply Forall_app.
Qed.

Lemma written_under_clock cfg token w :
  trace_id_var w = Some token -> written_under cfg token w (after_clock w).
Proof. intros H. split; [done|]. exists []. simpl. by rewrite app_nil_r. Qed.

Lemma written_under_logged cfg token site level msg extra exc_info w :
  trace_id_var w = Some token ->
  written_under cfg token w (logged cfg site level msg extra exc_info w).
Proof.
  intros H. unfold logged. destruct (isEnabledFor cfg level).
  - split; [done|]. eexists [_]. split; [reflexivity|].
    constructor; [|constructor]. simpl. by rewrite H.
  - by apply written_under_refl.
Qed.

Lemma written_under_logging_run cfg token w w' :
  trace_id_var w = Some token -> logging_run cfg w w' ->
  written_under cfg token w w'.
Proof.
  intros Ht Hrun. split.
  - apply logging_run_frame in Hrun as (_ & _ & _ & -> & _). done.
  - apply logging_run_stdout in Hrun as (recs & E & Hrecs).
    exists recs. split; [done|]. by rewrite Ht in Hrecs.
Qed.

Lemma written_under_call_next cfg token d request w r w' :
  trace_id_var w = Some token ->
  call_next cfg d request w = (r, w') ->
  written_under cfg token w w'.
Proof.
  intros Ht H. pose proof (call_next_run cfg d request w) as Hrun.
  rewrite H in Hrun. simpl in Hrun.
  apply (written_under_logging_run cfg token) in Hrun; [|done].
  destruct Hrun as (Ht' & recs & E & Hrecs). split; [done|]. by exists recs.
Qed.

Lemma written_under_dispatch cfg request d w r w' :
  LoggingMiddleware.dispatch cfg request (call_next cfg d) w = (r, w') ->
  written_under cfg (token_of request w) (bound request w) w'.
Proof.
  intros H. apply logging_dispatch_runs in H.
  assert (written_under cfg (token_of request w) (bound request w)
            (logged cfg incoming_site INFO "Incoming request"
               (incoming_extra request) None (after_clock (bound request w))))
    as Hentry.
  { eapply written_under_trans; [by apply written_under_clock|].
    by apply written_under_logged. }
  destruct H as [w1 e w2 -> Hnext|w1 response w2 -> Hnext].
  - eapply written_under_trans; [exact Hentry|].
    eapply written_under_call_next; [|exact Hnext]. apply Hentry.
  - pose proof (written_under_call_next cfg (token_of request w) _ _ _ _ _
                  (proj1 Hentry) Hnext) as Hdown.
    eapply written_under_trans; [exact Hentry|].
    eapply written_under_trans; [exact Hdown|].
    eapply written_under_trans;
      [apply written_under_clock, Hdown|apply written_under_logged, Hdown].
Qed.

Lemma stdout_bound request w : stdout (bound request w) = stdout w.
Proof. reflexivity. Qed.

(** C2 (as the code has it).  Outside development mode: a non-empty inbound
    X-Trace-ID value is bound unchanged as the trace token, otherwise a
    freshly generated UUID string is; the token is the [trace_id] member of
    every record written during the request and the X-Trace-ID header of
    the response the middleware returns. *)
Theorem C2_trace_token_propagation cfg request d w :
  production cfg ->
  let run := LoggingMiddleware.dispatch cfg request (call_next cfg d) w in
  let header := headers_get "X-Trace-ID" (req_headers request) in
  exists token,
    (forall V, header = Some V -> V <> "" -> token = V)
    /\ (header = None \/ header = Some "" ->
        token = fresh_token w /\ uuid.well_formed token = true)
    /\ trace_id_var (snd run) = Some token
    /\ Forall (fun e => member "trace_id" (em_output e) = Some (PStr token))
         (new_records w (snd run))
    /\ (forall response,
          fst run = Returned response ->
          headers_get "X-Trace-ID" (headers response) = Some token).
Proof.
  intros Hprod run header. exists (token_of request w).
  destruct run as [r w'] eqn:Hrun. cbn [fst snd].
  pose proof (written_under_dispatch _ _ _ _ _ _ Hrun) as (Ht & recs & E & Hrecs).
  rewrite stdout_bound in E.
  assert (header = headers_get "x-trace-id" (req_headers request)) as Hheader
    by reflexivity.
  clearbody header.
  repeat split.
  - intros V HV Hne. unfold token_of. rewrite <- Hheader, HV.
    destruct V; [done|reflexivity].
  - unfold token_of. rewrite <- Hheader. by destruct H as [->| ->].
  - destruct H as [H|H]; unfold token_of; rewrite <- Hheader, H;
      apply uuid_str_well_formed.
  - exact Ht.
  - rewrite (new_records_app _ _ _ E).
    eapply List.Forall_impl; [|exact Hrecs].
    intros e ->. rewrite render_production by done. simpl.
    apply json_trace_id_bound, token_of_nonempty.
  - intros response ->. apply logging_dispatch_runs in Hrun.
    inversion Hrun; subst. apply headers_get_set.
Qed.

Lemma C2_witness :
  exists token,
    token = "abc-123"
    /\ Forall (fun e => member "trace_id" (em_output e) = Some (PStr token))
         (new_records sample_world
            (snd (LoggingMiddleware.dispatch sample_production sample_request
                    (call_next sample_production sample_ok) sample_world))).
Proof.
  destruct (C2_trace_token_propagation sample_production sample_request
              sample_ok sample_world)
    as (token & HV & _ & _ & Hrecs & _).
  - discriminate.
  - exists token. split; [|exact Hrecs].
    apply HV; [reflexivity|discriminate].
Defined.

(** C2 as the specification states it fails in development mode: the line of text
    written for a record does not show the token. *)
Lemma C2_counterexample :
  ~ Forall (fun e => shows_trace "abc-123" (em_output e) = true)
      (new_records sample_world
         (snd (LoggingMiddleware.dispatch sample_development sample_request
                 (call_next sample_development sample_ok) sample_world))).
Proof.
  intros H. vm_compute in H. inversion H as [|e recs Hshow _]. discriminate.
Qed.

Lemma stdout_logged cfg site level msg extra exc_info w :
  stdout (logged cfg site level msg extra exc_info w)
  = (stdout w ++ logged_records cfg site level msg extra exc_info w)%list.
Proof.
  unfold logged, logged_records. destruct (isEnabledFor cfg level); simpl.
  - reflexivity.
  - by rewrite app_nil_r.
Qed.

Lemma history_logged cfg site level msg extra exc_info w :
  history (logged cfg site level msg extra exc_info w)
  = (history w ++ logged_events cfg site level msg extra exc_info w)%list.
Proof.
  unfold logged, logged_events. destruct (isEnabledFor cfg level); simpl.
  - reflexivity.
  - by rewrite app_nil_r.
Qed.

Lemma severity_cases status :
  (500 <= status /\ severity status = ERROR)
  \/ (400 <= status < 500 /\ severity status = WARNING)
  \/ (status < 400 /\ severity status = INFO).
Proof.
  unfold severity.
  destruct (500 <=? status)%Z eqn:E5; [apply Z.leb_le in E5; auto|].
  apply Z.leb_gt in E5.
  destruct (400 <=? status)%Z eqn:E4;
    [apply Z.leb_le in E4|apply Z.leb_gt in E4]; auto with lia.
Qed.

(** C7.  When the downstream handler has returned a response, the
    completion record is the last one written, and its severity is ERROR
    for a status of 500 or more, WARNING for a status from 400 to 499, INFO
    otherwise; it is written unless the logger's threshold is above that
    severity. *)
Theorem C7_completion_severity cfg request d w response :
  let run := LoggingMiddleware.dispatch cfg request (call_next cfg d) w in
  fst run = Returned response ->
  let status := status_code response in
  exists level earlier written,
    ((500 <= status /\ level = ERROR)
     \/ (400 <= status < 500 /\ level = WARNING)
     \/ (status < 400 /\ level = INFO))
    /\ stdout (snd run) = (earlier ++ written)%list
    /\ if isEnabledFor cfg level
       then exists e,
              written = [e]
              /\ rec_msg (em_record e) = "Request completed"
              /\ rec_level (em_record e) = level
              /\ dict_get "status_code" (rec_extra (em_record e))
                 = Some (PInt status)
       else written = [].
Proof.
  intros run Hr status. subst status.
  destruct run as [r w'] eqn:Hrun. cbn [fst snd] in *. subst r.
  apply logging_dispatch_runs in Hrun.
  inversion Hrun as [|w1 response0 w2 Hw1 Hnext Hresp Hw']; subst.
  cbn [status_code].
  exists (severity (status_code response0)), (stdout w2).
  eexists. split; [|split].
  - destruct (severity_cases (status_code response0)) as [[? ->]|[[? ->]|[? ->]]];
      auto.
  - rewrite stdout_logged. reflexivity.
  - unfold logged_records.
    destruct (isEnabledFor cfg (severity (status_code response0))); [|done].
    eexists. split; [reflexivity|]. by repeat split.
Qed.

Lemma C7_witness :
  exists level earlier written,
    ((500 <= 503 /\ level = ERROR)
     \/ (400 <= 503 < 500 /\ level = WARNING)
     \/ (503 < 400 /\ level = INFO))
    /\ stdout (snd (LoggingMiddleware.dispatch sample_production
                      sample_request
                      (call_next sample_production sample_unavailable)
                      sample_world))
       = (earlier ++ written)%list
    /\ if isEnabledFor sample_production level
       then exists e,
              written = [e]
              /\ rec_msg (em_record e) = "Request completed"
              /\ rec_level (em_record e) = level
              /\ dict_get "status_code" (rec_extra (em_record e))
                 = Some (PInt 503)
       else written = [].
Proof.
  apply (C7_completion_severity sample_production sample_request
           sample_unavailable sample_world
           (mk_response 503 [("x-trace-id", "abc-123")])).
  reflexivity.
Defined.

(** ** Order within a request *)

Lemma call_next_stdout cfg d request w r w' :
  call_next cfg d request w = (r, w') ->
  exists recs, stdout w' = (stdout w ++ recs)%list.
Proof.
  intros H. pose proof (call_next_run cfg d request w) as Hrun.
  rewrite H in Hrun. simpl in Hrun.
  apply logging_run_stdout in Hrun as (recs & E & _). by exists recs.
Qed.

Lemma logged_records_msg cfg site level msg extra exc_info w :
  Forall (fun e => rec_msg (em_record e) = msg)
    (logged_records cfg site level msg extra exc_info w).
Proof.
  unfold logged_records. destruct (isEnabledFor cfg level); repeat constructor.
Qed.

Lemma logged_records_length cfg site level msg extra exc_info w :
  isEnabledFor cfg level = true ->
  length (logged_records cfg site level msg extra exc_info w) = 1%nat.
Proof. unfold logged_records. by intros ->. Qed.

(** The order of the records and events the logging middleware leaves *)
Lemma logging_order cfg request d w :
  let run := LoggingMiddleware.dispatch cfg request (call_next cfg d) w in
  let t0 := clock w (ticks w) in
  exists incoming handler completed before after,
    new_records w (snd run) = (incoming ++ handler ++ completed)%list
    /\ new_events w (snd run)
       = (EvClock t0 :: before ++ EvCallNext request :: after)%list
    /\ Forall (fun e => rec_msg (em_record e) = "Incoming request") incoming
    /\ (isEnabledFor cfg INFO = true -> length incoming = 1%nat)
    /\ Forall
         (fun e =>
            rec_msg (em_record e) = "Request completed"
            /\ exists t1,
                 In (EvClock t1) after
                 /\ dict_get "duration_ms" (rec_extra (em_record e))
                    = Some (PInt ((t1 - t0) * 1000)))
         completed
    /\ (forall response,
          fst run = Returned response ->
          isEnabledFor cfg (severity (status_code response)) = true ->
          length completed = 1%nat).
Proof.
  intros run t0. subst t0.
  destruct run as [r w'] eqn:Hrun. cbn [fst snd].
  apply logging_dispatch_runs in Hrun.
  remember (logged cfg incoming_site INFO "Incoming request"
              (incoming_extra request) None (after_clock (bound request w)))
    as w1 eqn:Hw1.
  assert (stdout w1
          = (stdout w ++ logged_records cfg incoming_site INFO
               "Incoming request" (incoming_extra request) None
               (after_clock (bound request w)))%list) as Hout1
    by (subst w1; by rewrite stdout_logged).
  assert (history w1
          = (history w ++ EvClock (clock w (ticks w))
               :: logged_events cfg incoming_site INFO "Incoming request"
                    (incoming_extra request) None
                    (after_clock (bound request w)))%list) as Hhist1
    by (subst w1; rewrite history_logged; simpl; by rewrite <- app_assoc).
  set (incoming := logged_records cfg incoming_site INFO "Incoming request"
                     (incoming_extra request) None
                     (after_clock (bound request w))) in *.
  set (before := logged_events cfg incoming_site INFO "Incoming request"
                   (incoming_extra request) None
                   (after_clock (bound request w))) in *.
  assert (Forall (fun e => rec_msg (em_record e) = "Incoming request") incoming)
    as Hmsg by apply logged_records_msg.
  assert (isEnabledFor cfg INFO = true -> length incoming = 1%nat) as Hlen
    by apply logged_records_length.
  clearbody incoming before.
  destruct Hrun as [w1' e w2 -> Hnext|w1' response w2 -> Hnext];
    rewrite <- Hw1 in Hnext; clear Hw1.
  - destruct (call_next_stdout _ _ _ _ _ _ Hnext) as (recs & Hout2).
    destruct (call_next_effect _ _ _ _ _ _ Hnext) as (_ & logs & Hhist2 & _).
    exists incoming, recs, [], before, logs.
    split; [|split; [|split; [|split; [|split]]]].
    + apply new_records_app. rewrite Hout2, Hout1, app_nil_r.
      by rewrite <- app_assoc.
    + apply new_events_app. rewrite Hhist2, Hhist1.
      rewrite <- app_assoc. reflexivity.
    + exact Hmsg.
    + exact Hlen.
    + constructor.
    + intros response H. discriminate H.
  - destruct (call_next_stdout _ _ _ _ _ _ Hnext) as (recs & Hout2).
    destruct (call_next_effect _ _ _ _ _ _ Hnext) as (_ & logs & Hhist2 & _).
    set (duration := (clock w2 (ticks w2) - clock w (ticks w)) * 1000).
    exists incoming, recs,
      (logged_records cfg completed_site (severity (status_code response))
         "Request completed" (completed_extra request response duration) None
         (after_clock w2)),
      before,
      (logs ++ EvClock (clock w2 (ticks w2))
         :: logged_events cfg completed_site (severity (status_code response))
              "Request completed" (completed_extra request response duration)
              None (after_clock w2))%list.
    split; [|split; [|split; [|split; [|split]]]].
    + apply new_records_app. rewrite stdout_logged.
      cbn [stdout after_clock].
      rewrite Hout2, Hout1. rewrite <- !app_assoc. reflexivity.
    + apply new_events_app. rewrite history_logged.
      cbn [history after_clock].
      rewrite Hhist2, Hhist1. rewrite <- ?app_assoc.
      cbn [List.app app]. rewrite <- ?app_assoc. reflexivity.
    + exact Hmsg.
    + exact Hlen.
    + unfold logged_records.
      destruct (isEnabledFor cfg (severity (status_code response)));
        [|constructor].
      constructor; [|constructor]. split; [reflexivity|].
      exists (clock w2 (ticks w2)). split; [|reflexivity].
      apply in_or_app. right. left. reflexivity.
    + intros response' H. injection H as <-. cbn [status_code].
      apply logged_records_length.
Qed.

(** The order of the events the metrics middleware leaves *)
Lemma metrics_order cfg request d w :
  let evs :=
    new_events w
      (snd (MetricsMiddleware.dispatch cfg request (call_next cfg d) w)) in
  let t0 := clock w (ticks w) in
  (forall labels,
     In (EvGaugeDec labels) evs ->
     occurs_before (EvGaugeInc labels) (EvGaugeDec labels) evs)
  /\ (forall labels v,
        In (EvObserve H_http_request_duration labels v) evs ->
        exists t1 before after,
          evs = (EvClock t0 :: before ++ EvCallNext request :: after)%list
          /\ In (EvClock t1) after
          /\ v = t1 - t0).
Proof.
  intros evs t0. subst evs t0.
  destruct (MetricsMiddleware.dispatch _ _ _ w) as [r w'] eqn:Hrun.
  cbn [snd]. apply dispatch_trace in Hrun.
  inversion Hrun as [e He|n logs e Hn Hlogs|n logs response t1 e Hn Hlogs Hm
                    |n logs response t1 m Hn Hlogs Hm]; subst; split.
  - intros labels Hin. in_trace Hin; discriminate.
  - intros labels v Hin. in_trace Hin; discriminate.
  - intros labels Hin. in_trace Hin; try discriminate; not_logging Hin Hlogs.
  - intros labels v Hin. in_trace Hin; try discriminate;
      not_logging Hin Hlogs.
  - intros labels Hin. in_trace Hin; try discriminate; not_logging Hin Hlogs.
  - intros labels v Hin. in_trace Hin; try discriminate;
      not_logging Hin Hlogs.
  - intros labels Hin. in_trace Hin; try discriminate;
      try not_logging Hin Hlogs.
    injection Hin as <-.
    exists [EvClock (clock w (ticks w))],
      (size_events H_http_request_size (request_labels cfg request) n
       ++ EvCallNext request :: logs
       ++ [EvClock t1;
           EvCounterInc (response_labels cfg request response) 1;
           EvObserve H_http_request_duration
             (response_labels cfg request response)
             (t1 - clock w (ticks w))]
       ++ size_events H_http_response_size
            (response_labels cfg request response) m)%list,
      [].
    cbn [List.app app]. do 2 f_equal.
    rewrite <- ?app_assoc. cbn [List.app app]. do 2 f_equal.
    rewrite <- ?app_assoc. reflexivity.
  - intros labels v Hin. in_trace Hin; try discriminate;
      try not_logging Hin Hlogs.
    injection Hin as <- <-.
    exists t1,
      (EvGaugeInc [SERVICE_NAME cfg]
       :: size_events H_http_request_size (request_labels cfg request) n),
      (logs
       ++ [EvClock t1;
           EvCounterInc (response_labels cfg request response) 1;
           EvObserve H_http_request_duration
             (response_labels cfg request response)
             (t1 - clock w (ticks w))]
       ++ size_events H_http_response_size
            (response_labels cfg request response) m
       ++ [EvGaugeDec [SERVICE_NAME cfg]])%list.
    split; [reflexivity|]. split; [|reflexivity].
    apply in_or_app. right. left. reflexivity.
Qed.

(** ** The production record *)

Lemma dict_get_none_keys {V} k (d : list (string * V)) :
  dict_get k d = None <-> ~ In k (dict_keys d).
Proof.
  induction d as [|[k' v] d IH]; simpl; [tauto|].
  destruct (String.eqb k k') eqn:E.
  - apply String.eqb_eq in E. subst. split; [discriminate|tauto].
  - apply String.eqb_neq in E. rewrite IH. intuition congruence.
Qed.

Lemma merge_record_extra_eq record target :
  JsonFormatter.merge_record_extra record target
  = fold_left merge_step (rec_extra record) target.
Proof. reflexivity. Qed.

Lemma merge_absent k extra target :
  ~ In k (dict_keys extra) ->
  dict_get k (fold_left merge_step extra target) = dict_get k target.
Proof.
  revert target. induction extra as [|[k' v] extra IH]; intros target Hk;
    simpl in *; [done|].
  rewrite IH by tauto. unfold merge_step. simpl.
  destruct (JsonFormatter.skipped k'); [done|].
  apply dict_get_set_ne. intros ->. tauto.
Qed.

Lemma merge_skipped k extra target :
  JsonFormatter.skipped k = true ->
  dict_get k (fold_left merge_step extra target) = dict_get k target.
Proof.
  intros Hk. revert target.
  induction extra as [|[k' v] extra IH]; intros target; simpl; [done|].
  rewrite IH. unfold merge_step. simpl.
  destruct (JsonFormatter.skipped k') eqn:E; [done|].
  apply dict_get_set_ne. intros ->. congruence.
Qed.

Lemma merge_present k v extra target :
  NoDup (dict_keys extra) ->
  dict_get k extra = Some v ->
  JsonFormatter.skipped k = false ->
  dict_get k (fold_left merge_step extra target) = Some v.
Proof.
  intros Hnodup Hget Hk. revert target Hnodup Hget.
  induction extra as [|[k' v'] extra IH]; intros target Hnodup Hget;
    simpl in *; [discriminate|].
  apply NoDup_cons in Hnodup as [Hnotin Hnodup].
  destruct (String.eqb k k') eqn:E.
  - apply String.eqb_eq in E. subst k'. injection Hget as ->.
    rewrite merge_absent by (by rewrite <- list_elem_of_In).
    unfold merge_step. simpl. rewrite Hk. apply dict_get_set_eq.
  - by apply IH.
Qed.

(** The member of the base class's object under a key that is not a
    required field *)
Lemma base_fields_other k record :
  in_strings k JsonFormatter.required_fields = false ->
  k <> "exc_info" ->
  dict_get k
    (dict_update
       (fold_left
          (fun acc field =>
             dict_set field (JsonFormatter.record_attr record field) acc)
          JsonFormatter.required_fields [])
       (JsonFormatter.message_dict record))
  = None.
Proof.
  intros Hk Hexc. unfold JsonFormatter.message_dict.
  unfold in_strings, JsonFormatter.required_fields in Hk. simpl in Hk.
  repeat (apply orb_false_elim in Hk as [? Hk]).
  apply String.eqb_neq in Hexc.
  destruct (rec_exc_info record); unfold dict_update; simpl;
    repeat lazymatch goal with
           | H : String.eqb k ?f = false |- context [String.eqb k ?f] =>
               rewrite H
           end; reflexivity.
Qed.

Lemma base_message record :
  dict_get "message"
    (JsonFormatter.add_fields [] record (JsonFormatter.message_dict record))
  = Some (PStr (rec_msg record)).
Proof.
  unfold JsonFormatter.add_fields. rewrite merge_record_extra_eq.
  rewrite merge_skipped by reflexivity.
  unfold JsonFormatter.message_dict.
  destruct (rec_exc_info record); reflexivity.
Qed.

Lemma base_caller_field k v record :
  NoDup (dict_keys (rec_extra record)) ->
  dict_get k (rec_extra record) = Some v ->
  JsonFormatter.skipped k = false ->
  dict_get k
    (JsonFormatter.add_fields [] record (JsonFormatter.message_dict record))
  = Some v.
Proof.
  intros. unfold JsonFormatter.add_fields. rewrite merge_record_extra_eq.
  by apply merge_present.
Qed.

Lemma base_trace_id record :
  NoDup (dict_keys (rec_extra record)) ->
  dict_get "trace_id"
    (JsonFormatter.add_fields [] record (JsonFormatter.message_dict record))
  = dict_get "trace_id" (rec_extra record).
Proof.
  intros Hnodup. unfold JsonFormatter.add_fields.
  rewrite merge_record_extra_eq.
  destruct (dict_get "trace_id" (rec_extra record)) as [v|] eqn:E.
  - by apply merge_present.
  - rewrite merge_absent by (by apply dict_get_none_keys).
    by apply base_fields_other.
Qed.

Lemma json_reserved_values cfg trace_id record :
  let obj := json_of cfg trace_id record in
  dict_get "timestamp" obj
  = Some (PStr (strftime cfg CustomJsonFormatter.datefmt (rec_created record)))
  /\ dict_get "level" obj = Some (PStr (levelname (rec_level record)))
  /\ dict_get "service" obj = Some (PStr (SERVICE_NAME cfg))
  /\ dict_get "environment" obj = Some (PStr (ENVIRONMENT cfg))
  /\ dict_get "version" obj = Some (PStr (APP_VERSION cfg))
  /\ dict_get "logger" obj = Some (PStr (rec_name record))
  /\ dict_get "file" obj = Some (PStr (rec_filename record))
  /\ dict_get "line" obj = Some (PInt (rec_lineno record))
  /\ dict_get "function" obj = Some (PStr (rec_funcName record))
  /\ dict_get "message" obj = Some (PStr (rec_msg record)).
Proof.
  unfold json_of. cbn zeta.
  destruct (truthy trace_id);
    repeat split;
    repeat first [ apply dict_get_set_eq
                 | apply base_message
                 | rewrite dict_get_set_ne by discriminate ].
Qed.

Lemma json_trace_id_unbound cfg trace_id record :
  truthy trace_id = false ->
  NoDup (dict_keys (rec_extra record)) ->
  dict_get "trace_id" (json_of cfg trace_id record)
  = dict_get "trace_id" (rec_extra record).
Proof.
  intros Ht Hnodup. unfold json_of. rewrite Ht.
  rewrite !dict_get_set_ne by discriminate. by apply base_trace_id.
Qed.

Lemma json_caller_field cfg trace_id record k v :
  NoDup (dict_keys (rec_extra record)) ->
  dict_get k (rec_extra record) = Some v ->
  overridden k = false ->
  extra_clash k = false ->
  JsonFormatter.starts_with_underscore k = false ->
  dict_get k (json_of cfg trace_id record) = Some v.
Proof.
  intros Hnodup Hget Hover Hclash Hunder.
  unfold overridden, in_strings, reserved_keys in Hover. simpl in Hover.
  apply orb_false_elim in Hover as [Hres Htrace].
  repeat (apply orb_false_elim in Hres as [? Hres]). clear Hres.
  repeat match goal with
         | H : String.eqb _ _ = false |- _ => apply String.eqb_neq in H
         end.
  assert (JsonFormatter.skipped k = false) as Hskip.
  { unfold JsonFormatter.skipped. rewrite Hclash, Hunder.
    unfold in_strings, JsonFormatter.required_fields. simpl.
    repeat match goal with
           | H : k <> ?f |- context [String.eqb k ?f] =>
               apply String.eqb_neq in H; rewrite H
           end. reflexivity. }
  unfold json_of. cbn zeta.
  destruct (truthy trace_id);
    rewrite !dict_get_set_ne by done; by apply base_caller_field.
Qed.

Lemma accepted_key extra k v :
  accepted extra -> dict_get k extra = Some v -> extra_clash k = false.
Proof.
  unfold accepted. rewrite find_none_iff. intros H Hget. apply H.
  destruct (in_dec string_dec k (dict_keys extra)) as [Hin|Hnot]; [done|].
  apply dict_get_none_keys in Hnot. congruence.
Qed.




(** ** The generic helpers *)

Lemma accepted_update1 d k v :
  extra_clash k = false -> accepted d -> accepted (dict_update d [(k, v)]).
Proof. intros. by apply accepted_set. Qed.

Lemma accepted_start_extra helper operation context :
  accepted context -> accepted (start_extra helper operation context).
Proof.
  intros H. destruct helper; [|done]. by apply accepted_update1.
Qed.

Lemma accepted_failure_extra base e duration_ms :
  accepted base -> accepted (failure_extra base e duration_ms).
Proof.
  intros H. unfold failure_extra, dict_update. cbn [fold_left fst snd].
  by repeat apply accepted_set.
Qed.

Lemma wrapper_raised sites cfg operation context {A} (func : M A) w e w2 :
  accepted context ->
  func (logged cfg (log_execution.at_debug sites) DEBUG
          ("Starting " ++ operation)
          (dict_update context [("operation", PStr operation)]) None
          (after_clock w))
  = (Raised e, w2) ->
  log_execution.wrapper sites cfg operation context func w
  = (Raised e,
     if exn_is_Exception e
     then logged cfg (log_execution.at_error sites) ERROR
            ("Failed " ++ operation)
            (failure_extra
               (dict_update context [("operation", PStr operation)]) e
               ((clock w2 (ticks w2) - clock w (ticks w)) * 1000))
            (Some e) (after_clock w2)
     else w2).
Proof.
  intros Hctx Hfunc. unfold log_execution.wrapper, logger_debug, logger_error.
  mrun. fold (after_clock w).
  rewrite logger_log_logged by (by apply accepted_update1).
  unfold try_except_Exception. rewrite Hfunc.
  destruct (exn_is_Exception e); [|reflexivity].
  fold (after_clock w2).
  fold (failure_extra (dict_update context [("operation", PStr operation)]) e
          ((clock w2 (ticks w2) - clock w (ticks w)) * 1000)).
  rewrite logger_log_logged
    by (by apply accepted_failure_extra, accepted_update1).
  reflexivity.
Qed.

Lemma scope_raised cfg operation context {A} (body : M A) w e w2 :
  accepted context ->
  body (logged cfg (mk_site this_file 320 "__enter__") DEBUG
          ("Starting " ++ operation) context None (after_clock w))
  = (Raised e, w2) ->
  Timer.scope cfg operation context body w
  = (Raised e,
     logged cfg (mk_site this_file 336 "__exit__") ERROR
       ("Failed " ++ operation)
       (failure_extra context e
          ((clock w2 (ticks w2) - clock w (ticks w)) * 1000))
       (Some e) (after_clock w2)).
Proof.
  intros Hctx Hbody.
  unfold Timer.scope, with_statement, Timer.enter, Timer.exit, Timer.init,
    logger_debug, logger_error.
  mrun. cbn [Timer.operation Timer.context Timer.start].
  fold (after_clock w).
  rewrite logger_log_logged by done.
  rewrite Hbody. mrun. cbn [Timer.operation Timer.context Timer.start].
  fold (after_clock w2).
  fold (failure_extra context e
          ((clock w2 (ticks w2) - clock w (ticks w)) * 1000)).
  rewrite logger_log_logged by (by apply accepted_failure_extra).
  reflexivity.
Qed.

Lemma instrument_raised cfg helper operation context {A} (func : M A) w e w2 :
  accepted context ->
  func (started cfg helper operation context w) = (Raised e, w2) ->
  instrument cfg helper operation context func w
  = (Raised e,
     if handles helper e
     then logged cfg (error_site helper) ERROR ("Failed " ++ operation)
            (failure_extra (start_extra helper operation context) e
               ((clock w2 (ticks w2) - clock w (ticks w)) * 1000))
            (Some e) (after_clock w2)
     else w2).
Proof.
  intros Hctx Hfunc. destruct helper as [[|]|]; cbn [instrument handles].
  - by apply wrapper_raised.
  - by apply wrapper_raised.
  - by apply scope_raised.
Qed.

Lemma registry_logged cfg site level msg extra exc_info w :
  registry (logged cfg site level msg extra exc_info w) = registry w.
Proof. unfold logged. by destruct (isEnabledFor cfg level). Qed.

Lemma logged_events_logging cfg site level msg extra exc_info w :
  Forall is_logging_event (logged_events cfg site level msg extra exc_info w).
Proof.
  unfold logged_events. destruct (isEnabledFor cfg level); repeat constructor.
Qed.

Lemma new_events_clock_logged cfg site level msg extra exc_info w :
  new_events w (logged cfg site level msg extra exc_info (after_clock w))
  = EvClock (clock w (ticks w))
    :: logged_events cfg site level msg extra exc_info (after_clock w).
Proof.
  apply new_events_app. rewrite history_logged. simpl.
  by rewrite <- app_assoc.
Qed.

Lemma new_records_clock_logged cfg site level msg extra exc_info w :
  new_records w (logged cfg site level msg extra exc_info (after_clock w))
  = logged_records cfg site level msg extra exc_info (after_clock w).
Proof. apply new_records_app. by rewrite stdout_logged. Qed.

Lemma failure_extra_fields base e duration_ms :
  let extra := failure_extra base e duration_ms in
  dict_get "error" extra = Some (PStr (exn_str e))
  /\ dict_get "error_type" extra = Some (PStr (exn_type e))
  /\ dict_get "duration_ms" extra = Some (PInt duration_ms)
  /\ dict_get "status" extra = Some (PStr "error").
Proof.
  unfold failure_extra, dict_update. cbn [fold_left fst snd].
  repeat split;
    repeat first [ apply dict_get_set_eq
                 | rewrite dict_get_set_ne by discriminate ].
Qed.





(** On a request that completes, both records are written, the gauge
    moves up and down once, and the duration is observed. *)
Example order_of_a_completed_request :
  let logging :=
    LoggingMiddleware.dispatch sample_production sample_request
      (call_next sample_production sample_ok) sample_world in
  let metrics :=
    MetricsMiddleware.dispatch sample_production sample_request
      (call_next sample_production sample_ok) sample_world in
  map (fun e => rec_msg (em_record e)) (stdout (snd logging))
  = ["Incoming request"; "Request completed"]
  /\ history (snd metrics)
     = [EvClock 1700000000;
        EvGaugeInc ["pluggedin-service"];
        EvObserve H_http_request_size
          ["GET"; "/api/users/42"; "pluggedin-service"] 12;
        EvCallNext sample_request;
        EvClock 1700000001;
        EvCounterInc ["GET"; "/api/users/42"; "200"; "pluggedin-service"] 1;
        EvObserve H_http_request_duration
          ["GET"; "/api/users/42"; "200"; "pluggedin-service"] 1;
        EvObserve H_http_response_size
          ["GET"; "/api/users/42"; "200"; "pluggedin-service"] 5;
        EvGaugeDec ["pluggedin-service"]].
Proof. split; reflexivity. Qed.

(** * Further properties of the code *)

(** ** The metrics middleware towards its caller *)

Lemma dispatch_returned cfg request d w response w' :
  MetricsMiddleware.dispatch cfg request (call_next cfg d) w
  = (Returned response, w') ->
  ds_outcome d = Returned response.
Proof.
  intros Hrun. apply dispatch_runs in Hrun.
  inversion Hrun as [| |n w1 response0 w2 r w3 Hn Hentry Hnext Hres]; subst.
  apply call_next_returned in Hnext.
  rewrite resume_eq in Hres. cbn zeta in Hres.
  destruct (size_of (headers response0)); [|discriminate].
  injection Hres as <- _. exact Hnext.
Qed.

(** X1.  The metrics middleware hands the handler's response through as it
    is and never makes a response of a failure: a response it returns is
    the response the handler returned, and when the handler raises the
    middleware raises. *)
Theorem X1_metrics_middleware_is_transparent cfg request d w :
  let run := MetricsMiddleware.dispatch cfg request (call_next cfg d) w in
  (forall response, fst run = Returned response ->
                    ds_outcome d = Returned response)
  /\ (forall e, ds_outcome d = Raised e -> exists e', fst run = Raised e').
Proof.
  intros run. destruct run as [r w'] eqn:Hrun. cbn [fst]. split.
  - intros response ->. by eapply dispatch_returned.
  - intros e He. destruct r as [response|e']; [|by eexists].
    apply dispatch_returned in Hrun. congruence.
Qed.

(** ** One request, one count *)

Lemma call_next_counter cfg d request w r w' labels :
  call_next cfg d request w = (r, w') -> counter w' labels = counter w labels.
Proof.
  intros H. apply call_next_effect in H as (Hreg & _).
  unfold counter. by rewrite Hreg.
Qed.

Lemma counter_after_entry cfg request w r w1 labels :
  MetricsMiddleware.entry cfg request w = (r, w1) ->
  counter w1 labels = counter w labels.
Proof.
  rewrite entry_eq. cbn zeta.
  destruct (size_of (req_headers request)); intros [= _ <-];
    rewrite counter_recorded, ?http_requests_total_reg_size; reflexivity.
Qed.

Lemma counter_after_dispatch cfg request d w r w' :
  MetricsMiddleware.dispatch cfg request (call_next cfg d) w = (r, w') ->
  match r with
  | Returned response =>
      let own := [req_method request; req_path request;
                  str_int (status_code response); SERVICE_NAME cfg] in
      counter w' own = counter w own + 1
      /\ forall labels, labels <> own -> counter w' labels = counter w labels
  | Raised _ => forall labels, counter w' labels = counter w labels
  end.
Proof.
  intros Hrun. apply dispatch_runs in Hrun.
  destruct Hrun as [e He|n w1 e w2 Hn Hentry Hnext
                   |n w1 response w2 r w3 Hn Hentry Hnext Hres].
  - intros labels. rewrite counter_recorded. reflexivity.
  - intros labels. erewrite call_next_counter by eassumption.
    by eapply counter_after_entry.
  - assert (forall labels, counter w2 labels = counter w labels) as Hsame.
    { intros labels. erewrite call_next_counter by eassumption.
      by eapply counter_after_entry. }
    rewrite resume_eq in Hres. cbn zeta in Hres.
    destruct (size_of (headers response)); injection Hres as <- <-.
    + cbn zeta. split.
      * rewrite counter_recorded. cbn beta.
        unfold reg_gauge. cbn [http_requests_total].
        rewrite http_requests_total_reg_size. cbn [reg_observe histogram
          set_histogram http_requests_total reg_count].
        unfold response_labels.
        rewrite child_value_add_to_eq.
        specialize (Hsame [req_method request; req_path request;
                           str_int (status_code response); SERVICE_NAME cfg]).
        unfold counter in *. lia.
      * intros labels Hne. rewrite counter_recorded. cbn beta.
        unfold reg_gauge. cbn [http_requests_total].
        rewrite http_requests_total_reg_size. cbn [reg_observe histogram
          set_histogram http_requests_total reg_count].
        unfold response_labels.
        rewrite child_value_add_to_ne by congruence.
        apply Hsame.
    + intros labels. rewrite counter_recorded. cbn beta. apply Hsame.
Qed.


(** ** The gauge under concurrent requests *)

Lemma occupancy_insert tasks i t t' :
  tasks !! i = Some t ->
  occupancy (<[i := t']> tasks) = occupancy tasks - occupies t + occupies t'.
Proof.
  revert i. induction tasks as [|t0 tasks IH]; intros [|i] H; simpl in *;
    try discriminate.
  - injection H as ->. lia.
  - rewrite (IH i H). lia.
Qed.

Lemma occupancy_ready tasks : Forall is_ready tasks -> occupancy tasks = 0.
Proof.
  induction 1 as [|t tasks Ht _ IH]; simpl; [done|].
  destruct t; try contradiction. simpl. lia.
Qed.

Lemma step_gauge cfg t w t' w' :
  step cfg t w = (t', w') ->
  gauge w' [SERVICE_NAME cfg] - occupies t'
  = gauge w [SERVICE_NAME cfg] - occupies t.
Proof.
  destruct t as [request d|request t0 d|request t0 response|request r];
    cbn [step].
  - destruct (MetricsMiddleware.entry cfg request w) as [[t1|e] w1] eqn:He;
      intros [= <- <-]; cbn [occupies].
    + apply gauge_after_entry in He. lia.
    + rewrite entry_eq in He. cbn zeta in He.
      destruct (size_of (req_headers request)); [discriminate|].
      injection He as _ <-. rewrite gauge_recorded. cbn [reg_gauge active_requests].
      rewrite child_value_add_to_eq. unfold gauge. lia.
  - destruct (call_next cfg d request w) as [[response|e] w1] eqn:Hnext;
      intros [= <- <-]; cbn [occupies];
      by rewrite (call_next_gauge _ _ _ _ _ _ _ Hnext).
  - rewrite resume_eq. cbn zeta.
    destruct (size_of (headers response)); intros [= <- <-]; cbn [occupies].
    + rewrite gauge_recorded. cbn beta. cbn [reg_gauge active_requests].
      rewrite child_value_add_to_eq, active_requests_reg_size.
      cbn [reg_observe histogram set_histogram reg_count active_requests].
      unfold gauge. lia.
    + rewrite gauge_recorded. reflexivity.
  - by intros [= <- <-].
Qed.

Lemma gauge_under_any_schedule cfg schedule tasks w tasks' w' :
  run_schedule cfg schedule tasks w = (tasks', w') ->
  gauge w' [SERVICE_NAME cfg] - occupancy tasks'
  = gauge w [SERVICE_NAME cfg] - occupancy tasks.
Proof.
  revert tasks w. induction schedule as [|i schedule IH]; intros tasks w;
    cbn [run_schedule].
  - by intros [= <- <-].
  - destruct (tasks !! i) as [t|] eqn:Hi; [|apply IH].
    destruct (step cfg t w) as [t1 w1] eqn:Hstep.
    intros H. apply IH in H. rewrite H.
    rewrite (occupancy_insert _ _ _ _ Hi).
    pose proof (step_gauge _ _ _ _ _ Hstep). lia.
Qed.

(** X5.  However the scheduler interleaves the segments of the request
    tasks, the active-requests gauge of the service stands at its initial
    value plus the number of requests in flight plus the number of requests
    that have ended in an exception: finished requests weigh on it exactly
    when they failed. *)
Theorem X5_gauge_counts_in_flight_and_failed cfg schedule tasks w tasks' w' :
  Forall is_ready tasks ->
  run_schedule cfg schedule tasks w = (tasks', w') ->
  gauge w' [SERVICE_NAME cfg] = gauge w [SERVICE_NAME cfg] + occupancy tasks'.
Proof.
  intros Hready H. apply gauge_under_any_schedule in H.
  rewrite (occupancy_ready _ Hready) in H. lia.
Qed.

Lemma X5_witness :
  let run :=
    run_schedule sample_production [0; 1; 2; 1; 0; 0; 2]%nat sample_tasks
      sample_world in
  gauge (snd run) [SERVICE_NAME sample_production]
  = gauge sample_world [SERVICE_NAME sample_production] + occupancy (fst run).
Proof.
  intros run.
  apply (X5_gauge_counts_in_flight_and_failed sample_production
           [0; 1; 2; 1; 0; 0; 2]%nat sample_tasks sample_world).
  - repeat constructor.
  - apply surjective_pairing.
Defined.

(** ** Histograms only grow *)

Lemma reg_extends_refl r : reg_extends r r.
Proof. intros h labels. exists []. by rewrite app_nil_r. Qed.

Lemma reg_extends_trans r1 r2 r3 :
  reg_extends r1 r2 -> reg_extends r2 r3 -> reg_extends r1 r3.
Proof.
  intros H12 H23 h labels.
  destruct (H12 h labels) as (a1 & E1). destruct (H23 h labels) as (a2 & E2).
  exists (a1 ++ a2)%list. by rewrite E2, E1, app_assoc.
Qed.

Lemma reg_extends_gauge labels delta r : reg_extends r (reg_gauge labels delta r).
Proof. intros h l. exists []. rewrite app_nil_r. by destruct h. Qed.

Lemma reg_extends_count labels amount r :
  reg_extends r (reg_count labels amount r).
Proof. intros h l. exists []. rewrite app_nil_r. by destruct h. Qed.

Lemma child_observations_append (labels l : list string) (v : Z)
    (m : gmap (list string) (list Z)) :
  exists added,
    child_observations (append_to labels v m) l
    = (child_observations m l ++ added)%list.
Proof.
  unfold child_observations, append_to.
  destruct (decide (labels = l)) as [->|Hne].
  - exists [v]. by rewrite lookup_insert_eq.
  - exists []. by rewrite lookup_insert_ne, app_nil_r.
Qed.

Lemma reg_extends_observe h labels v r :
  reg_extends r (reg_observe h labels v r).
Proof.
  intros h' l. unfold reg_observe.
  destruct h, h'; cbn [set_histogram histogram];
    first [ apply child_observations_append
          | exists []; by rewrite app_nil_r ].
Qed.

Lemma reg_extends_size h labels n r : reg_extends r (reg_size h labels n r).
Proof.
  unfold reg_size.
  destruct (0 <? n)%Z; [apply reg_extends_observe|apply reg_extends_refl].
Qed.

(** X6.  Whatever way a request ends, the metrics middleware only appends
    to the histograms: under every label tuple of every histogram the
    earlier observations are still there, in their order, before anything
    the request added. *)
Theorem X6_histograms_only_grow cfg request d w h labels :
  let w' := snd (MetricsMiddleware.dispatch cfg request (call_next cfg d) w) in
  exists added,
    observations h w' labels = (observations h w labels ++ added)%list.
Proof.
  intros w'. subst w'.
  destruct (MetricsMiddleware.dispatch _ _ _ w) as [r w'] eqn:Hrun.
  cbn [snd]. unfold observations.
  cut (reg_extends (registry w) (registry w')); [intros H; apply H|].
  apply dispatch_runs in Hrun.
  assert (forall w1 t,
            MetricsMiddleware.entry cfg request w = (Returned t, w1) ->
            reg_extends (registry w) (registry w1)) as Hentry'.
  { intros w1 t H. apply entry_returned in H as (n & _ & ->).
    cbn [registry recorded].
    eapply reg_extends_trans; [apply reg_extends_gauge|apply reg_extends_size]. }
  destruct Hrun as [e He|n w1 e w2 Hn Hentry Hnext
                   |n w1 response w2 r w3 Hn Hentry Hnext Hres].
  - cbn [registry recorded]. apply reg_extends_gauge.
  - apply call_next_effect in Hnext as (-> & _). by eapply Hentry'.
  - apply call_next_effect in Hnext as (Hreg & _).
    eapply reg_extends_trans; [by eapply Hentry'|]. rewrite <- Hreg.
    rewrite resume_eq in Hres. cbn zeta in Hres.
    destruct (size_of (headers response)) as [z|e]; injection Hres as _ <-;
      cbn [registry recorded]; [|apply reg_extends_refl].
    set (own := response_labels cfg request response).
    set (duration := clock w2 (ticks w2) - clock w (ticks w)).
    set (r1 := reg_count own 1 (registry w2)).
    set (r2 := reg_observe H_http_request_duration own duration r1).
    set (r3 := reg_size H_http_response_size own z r2).
    apply (reg_extends_trans _ r1); [apply reg_extends_count|].
    apply (reg_extends_trans _ r2); [apply reg_extends_observe|].
    apply (reg_extends_trans _ r3); [apply reg_extends_size|].
    apply (reg_extends_gauge [SERVICE_NAME cfg] (-1) r3).
Qed.

(** ** The logging middleware towards its caller *)

Lemma headers_find_drop k k' h :
  k' <> k -> headers_find k' (headers_drop k h) = headers_find k' h.
Proof.
  intros Hne. induction h as [|[k0 v0] h IH]; simpl; [done|].
  destruct (String.eqb k k0) eqn:E; simpl.
  - apply String.eqb_eq in E. subst k0.
    apply String.eqb_neq in Hne. by rewrite Hne.
  - by rewrite IH.
Qed.

Lemma headers_find_replace_ne k k' v h :
  k' <> k -> headers_find k' (headers_replace k v h) = headers_find k' h.
Proof.
  intros Hne. induction h as [|[k0 v0] h IH]; simpl.
  - apply String.eqb_neq in Hne. by rewrite Hne.
  - destruct (String.eqb k k0) eqn:E; simpl.
    + apply String.eqb_eq in E. subst k0.
      pose proof Hne as Hne'. apply String.eqb_neq in Hne'. rewrite Hne'.
      by apply headers_find_drop.
    + by rewrite IH.
Qed.

Lemma filter_headers_drop k h :
  List.filter (fun kv => String.eqb k (fst kv)) (headers_drop k h) = [].
Proof.
  induction h as [|[k0 v0] h IH]; simpl; [done|].
  destruct (String.eqb k k0) eqn:E; simpl; [done|]. by rewrite E.
Qed.

Lemma filter_headers_replace k v h :
  List.filter (fun kv => String.eqb k (fst kv)) (headers_replace k v h)
  = [(k, v)].
Proof.
  induction h as [|[k0 v0] h IH]; simpl.
  - by rewrite String.eqb_refl.
  - destruct (String.eqb k k0) eqn:E; simpl.
    + by rewrite String.eqb_refl, filter_headers_drop.
    + by rewrite E.
Qed.

(** X2.  A response the logging middleware returns is the handler's
    response with the X-Trace-ID header set and nothing else touched: the
    status code is the handler's, every header of another name reads as
    before, and there is exactly one X-Trace-ID entry, which holds the
    token of the request, whatever entries of that name the handler had
    set. *)
Theorem X2_logging_middleware_only_sets_the_trace_header cfg request d w
    returned :
  fst (LoggingMiddleware.dispatch cfg request (call_next cfg d) w)
  = Returned returned ->
  exists response,
    ds_outcome d = Returned response
    /\ status_code returned = status_code response
    /\ (forall key,
          lower key <> "x-trace-id" ->
          headers_get key (headers returned) = headers_get key (headers response))
    /\ trace_headers (headers returned) = [("x-trace-id", token_of request w)].
Proof.
  destruct (LoggingMiddleware.dispatch _ _ _ w) as [r w'] eqn:Hrun.
  cbn [fst]. intros ->. apply logging_dispatch_runs in Hrun.
  inversion Hrun as [|w1 response w2 Hw1 Hnext Hr Hw']; subst.
  exists response. split; [by eapply call_next_returned|].
  split; [reflexivity|]. split.
  - intros key Hkey. cbn [headers]. unfold headers_get, headers_set.
    by apply headers_find_replace_ne.
  - cbn [headers]. apply filter_headers_replace.
Qed.

Lemma X2_witness :
  exists response,
    ds_outcome sample_ok = Returned response
    /\ status_code (mk_response 200 [("content-length", "5");
                                     ("x-trace-id", "abc-123")])
       = status_code response
    /\ (forall key,
          lower key <> "x-trace-id" ->
          headers_get key [("content-length", "5"); ("x-trace-id", "abc-123")]
          = headers_get key (headers response))
    /\ trace_headers [("content-length", "5"); ("x-trace-id", "abc-123")]
       = [("x-trace-id", token_of sample_request sample_world)].
Proof.
  apply (X2_logging_middleware_only_sets_the_trace_header sample_production
           sample_request sample_ok sample_world
           (mk_response 200 [("content-length", "5");
                             ("x-trace-id", "abc-123")])).
  vm_compute. reflexivity.
Defined.

(** X3.  When the handler raises, the logging middleware does nothing
    more: the exception that reaches the caller is the one that came out of
    the handler, and the process is left exactly as the handler left it, so
    no completion record is written and no response is made. *)
Theorem X3_logging_middleware_passes_failures_on cfg request d w e :
  let run := LoggingMiddleware.dispatch cfg request (call_next cfg d) w in
  fst run = Raised e ->
  call_next cfg d request (snd (LoggingSegments.entry cfg request w))
  = (Raised e, snd run).
Proof.
  intros run. subst run.
  destruct (LoggingMiddleware.dispatch _ _ _ w) as [r w'] eqn:Hrun.
  cbn [fst snd]. intros ->. apply logging_dispatch_runs in Hrun.
  inversion Hrun as [w1 e' w2 Hw1 Hnext He Hw'|]; subst.
  rewrite logging_entry_eq. exact Hnext.
Qed.

Lemma X3_witness :
  call_next sample_production sample_failing sample_request
    (snd (LoggingSegments.entry sample_production sample_request sample_world))
  = (Raised sample_error,
     snd (LoggingMiddleware.dispatch sample_production sample_request
            (call_next sample_production sample_failing) sample_world)).
Proof.
  apply (X3_logging_middleware_passes_failures_on sample_production
           sample_request sample_failing sample_world sample_error).
  vm_compute. reflexivity.
Defined.

(** ** The generic helpers on the other paths *)

Lemma accepted_success_extra base duration_ms :
  accepted base -> accepted (success_extra base duration_ms).
Proof.
  intros H. unfold success_extra, dict_update. cbn [fold_left fst snd].
  by repeat apply accepted_set.
Qed.

Lemma wrapper_returned sites cfg operation context {A} (func : M A) w a w2 :
  accepted context ->
  func (logged cfg (log_execution.at_debug sites) DEBUG
          ("Starting " ++ operation)
          (dict_update context [("operation", PStr operation)]) None
          (after_clock w))
  = (Returned a, w2) ->
  log_execution.wrapper sites cfg operation context func w
  = (Returned a,
     logged cfg (log_execution.at_info sites) INFO ("Completed " ++ operation)
       (success_extra (dict_update context [("operation", PStr operation)])
          ((clock w2 (ticks w2) - clock w (ticks w)) * 1000))
       None (after_clock w2)).
Proof.
  intros Hctx Hfunc. unfold log_execution.wrapper, logger_debug, logger_info.
  mrun. fold (after_clock w).
  rewrite logger_log_logged by (by apply accepted_update1).
  unfold try_except_Exception. mrun. rewrite Hfunc. fold (after_clock w2).
  fold (success_extra (dict_update context [("operation", PStr operation)])
          ((clock w2 (ticks w2) - clock w (ticks w)) * 1000)).
  rewrite logger_log_logged
    by (by apply accepted_success_extra, accepted_update1).
  reflexivity.
Qed.

Lemma scope_returned cfg operation context {A} (body : M A) w a w2 :
  accepted context ->
  body (logged cfg (mk_site this_file 320 "__enter__") DEBUG
          ("Starting " ++ operation) context None (after_clock w))
  = (Returned a, w2) ->
  Timer.scope cfg operation context body w
  = (Returned a,
     logged cfg (mk_site this_file 327 "__exit__") INFO
       ("Completed " ++ operation)
       (success_extra context
          ((clock w2 (ticks w2) - clock w (ticks w)) * 1000))
       None (after_clock w2)).
Proof.
  intros Hctx Hbody.
  unfold Timer.scope, with_statement, Timer.enter, Timer.exit, Timer.init,
    logger_debug, logger_info.
  mrun. cbn [Timer.operation Timer.context Timer.start].
  fold (after_clock w).
  rewrite logger_log_logged by done.
  rewrite Hbody. mrun. cbn [Timer.operation Timer.context Timer.start].
  fold (after_clock w2).
  fold (success_extra context
          ((clock w2 (ticks w2) - clock w (ticks w)) * 1000)).
  rewrite logger_log_logged by (by apply accepted_success_extra).
  reflexivity.
Qed.

Lemma instrument_returned cfg helper operation context {A} (func : M A)
    w a w2 :
  accepted context ->
  func (started cfg helper operation context w) = (Returned a, w2) ->
  instrument cfg helper operation context func w
  = (Returned a,
     logged cfg (info_site helper) INFO ("Completed " ++ operation)
       (success_extra (start_extra helper operation context)
          ((clock w2 (ticks w2) - clock w (ticks w)) * 1000))
       None (after_clock w2)).
Proof.
  intros Hctx Hfunc. destruct helper as [[|]|]; cbn [instrument].
  - by apply wrapper_returned.
  - by apply wrapper_returned.
  - by apply scope_returned.
Qed.

Lemma success_extra_fields base duration_ms :
  let extra := success_extra base duration_ms in
  dict_get "duration_ms" extra = Some (PInt duration_ms)
  /\ dict_get "status" extra = Some (PStr "success").
Proof.
  unfold success_extra, dict_update. cbn [fold_left fst snd].
  split;
    repeat first [ apply dict_get_set_eq
                 | rewrite dict_get_set_ne by discriminate ].
Qed.



(** X8.  The decorator catches [Exception] only.  When the wrapped work
    raises an exception outside that class (a cancellation, a keyboard
    interrupt), the decorator writes no record for it and reads no clock:
    the exception reaches the caller with the process exactly as the work
    left it. *)
Theorem X8_decorator_ignores_other_exceptions cfg operation context iscoroutine
    {A} (func : M A) w e w2 :
  accepted context ->
  exn_is_Exception e = false ->
  func (started cfg (Decorated iscoroutine) operation context w)
  = (Raised e, w2) ->
  log_execution.decorator cfg operation context iscoroutine func w
  = (Raised e, w2).
Proof.
  intros Hctx He Hfunc.
  pose proof (instrument_raised _ _ _ _ _ _ _ _ Hctx Hfunc) as H.
  cbn [instrument handles] in H. by rewrite He in H.
Qed.

Lemma X8_witness :
  log_execution.decorator sample_production "database_query"
    [("table", PStr "users")] true (raise sample_interrupt : M unit)
    sample_world
  = (Raised sample_interrupt,
     started sample_production (Decorated true) "database_query"
       [("table", PStr "users")] sample_world).
Proof.
  apply (X8_decorator_ignores_other_exceptions sample_production
           "database_query" [("table", PStr "users")] true
           (raise sample_interrupt : M unit) sample_world sample_interrupt);
    reflexivity.
Defined.

(** ** A context field that names a record attribute *)

Lemma find_clash_set k k0 (v : pyval) (d : dict) :
  find extra_clash (dict_keys d) = Some k ->
  find extra_clash (dict_keys (dict_set k0 v d)) = Some k.
Proof.
  induction d as [|[k1 v1] d IH]; cbn [dict_keys map fst find dict_set];
    [discriminate|].
  destruct (String.eqb k0 k1) eqn:E.
  - apply String.eqb_eq in E. subst k1. cbn [map fst find]. done.
  - cbn [map fst find]. destruct (extra_clash k1); [done|]. exact IH.
Qed.

Lemma find_clash_start_extra helper operation context k :
  find extra_clash (dict_keys context) = Some k ->
  find extra_clash (dict_keys (start_extra helper operation context)) = Some k.
Proof.
  intros H. destruct helper; [|exact H].
  unfold start_extra, dict_update. cbn [fold_left fst snd].
  by apply find_clash_set.
Qed.

Lemma find_clash_success_extra base duration_ms k :
  find extra_clash (dict_keys base) = Some k ->
  find extra_clash (dict_keys (success_extra base duration_ms)) = Some k.
Proof.
  intros H. unfold success_extra, dict_update. cbn [fold_left fst snd].
  by repeat apply find_clash_set.
Qed.

Lemma find_clash_failure_extra base e duration_ms k :
  find extra_clash (dict_keys base) = Some k ->
  find extra_clash (dict_keys (failure_extra base e duration_ms)) = Some k.
Proof.
  intros H. unfold failure_extra, dict_update. cbn [fold_left fst snd].
  by repeat apply find_clash_set.
Qed.

Lemma logger_log_clash cfg site level msg extra exc_info w k :
  isEnabledFor cfg level = true ->
  find extra_clash (dict_keys extra) = Some k ->
  logger_log cfg site level msg extra exc_info w
  = (Raised (overwrite_error k), after_clock w).
Proof. intros He Hk. by rewrite logger_log_eq, He, Hk. Qed.

Lemma logger_log_disabled cfg site level msg extra exc_info w :
  isEnabledFor cfg level = false ->
  logger_log cfg site level msg extra exc_info w = (Returned tt, w).
Proof. intros He. by rewrite logger_log_eq, He. Qed.

(** X9.  With a context field that names an attribute of the log record
    ([name], [module], [message] and the like) and a threshold that admits
    DEBUG, the decorator and the scoped timer raise [KeyError] from their
    "Starting" call: the wrapped work is never invoked, whatever it is. *)
Theorem X9_clashing_context_blocks_the_work cfg helper operation context k {A}
    (func : M A) w :
  find extra_clash (dict_keys context) = Some k ->
  isEnabledFor cfg DEBUG = true ->
  instrument cfg helper operation context func w
  = (Raised (overwrite_error k), after_clock (after_clock w)).
Proof.
  intros Hk Hdebug.
  pose proof (find_clash_start_extra helper operation context k Hk) as Hk'.
  destruct helper as [[|]|]; cbn [instrument start_extra] in *.
  - unfold log_execution.decorator, log_execution.async_wrapper,
      log_execution.wrapper, logger_debug.
    mrun. fold (after_clock w).
    by rewrite (logger_log_clash _ _ _ _ _ _ _ k Hdebug Hk').
  - unfold log_execution.decorator, log_execution.sync_wrapper,
      log_execution.wrapper, logger_debug.
    mrun. fold (after_clock w).
    by rewrite (logger_log_clash _ _ _ _ _ _ _ k Hdebug Hk').
  - unfold Timer.scope, with_statement, Timer.enter, Timer.init, logger_debug.
    mrun. cbn [Timer.operation Timer.context Timer.start].
    fold (after_clock w).
    by rewrite (logger_log_clash _ _ _ _ _ _ _ k Hdebug Hk').
Qed.

Lemma X9_witness :
  instrument sample_production (Decorated false) "database_query"
    [("table", PStr "users"); ("name", PStr "primary")] (ret 7) sample_world
  = (Raised (overwrite_error "name"), after_clock (after_clock sample_world)).
Proof.
  apply (X9_clashing_context_blocks_the_work sample_production
           (Decorated false) "database_query"
           [("table", PStr "users"); ("name", PStr "primary")] "name"
           (ret 7) sample_world);
    reflexivity.
Defined.

Lemma info_admits_error cfg :
  isEnabledFor cfg INFO = true -> isEnabledFor cfg ERROR = true.
Proof.
  unfold isEnabledFor. intros H. apply Z.leb_le in H. apply Z.leb_le.
  cbn [levelno] in *. lia.
Qed.

(** X10.  With such a context field and the threshold at INFO (the
    default), the "Starting" call is filtered and the work runs; when it
    returns, the "Completed" call raises [KeyError], so the caller of the
    decorator or of the scoped timer gets that exception in place of the
    value the work returned. *)
Theorem X10_clashing_context_turns_success_into_KeyError cfg helper operation
    context k {A} (func : M A) w a w2 :
  find extra_clash (dict_keys context) = Some k ->
  isEnabledFor cfg DEBUG = false ->
  isEnabledFor cfg INFO = true ->
  func (after_clock w) = (Returned a, w2) ->
  fst (instrument cfg helper operation context func w)
  = Raised (overwrite_error k).
Proof.
  intros Hk Hdebug Hinfo Hfunc.
  pose proof (info_admits_error _ Hinfo) as Herror.
  pose proof (find_clash_start_extra helper operation context k Hk) as Hk'.
  assert (forall sites,
            fst (log_execution.wrapper sites cfg operation context func w)
            = Raised (overwrite_error k)) as Hwrapper.
  { intros sites. cbn [start_extra] in Hk'.
    unfold log_execution.wrapper, logger_debug, logger_info, logger_error.
    mrun. fold (after_clock w).
    rewrite (logger_log_disabled _ _ _ _ _ _ _ Hdebug).
    unfold try_except_Exception. mrun. rewrite Hfunc. fold (after_clock w2).
    fold (success_extra (dict_update context [("operation", PStr operation)])
            ((clock w2 (ticks w2) - clock w (ticks w)) * 1000)).
    rewrite (logger_log_clash _ _ _ _ _ _ _ k Hinfo)
      by (apply find_clash_success_extra;
          apply (find_clash_start_extra (Decorated true) operation context k Hk)).
    cbn [overwrite_error exn_is_Exception]. mrun.
    match goal with
    | |- context [logger_log cfg ?s ERROR ?m ?x ?i ?w0] =>
        rewrite (logger_log_clash cfg s ERROR m x i w0 k Herror)
    end; [reflexivity|].
    apply (find_clash_failure_extra
             (dict_update context [("operation", PStr operation)])).
    apply (find_clash_start_extra (Decorated true) operation context k Hk). }
  destruct helper as [[|]|]; cbn [instrument].
  - apply Hwrapper.
  - apply Hwrapper.
  - unfold Timer.scope, with_statement, Timer.enter, Timer.exit, Timer.init,
      logger_debug, logger_info.
    mrun. cbn [Timer.operation Timer.context Timer.start].
    fold (after_clock w).
    rewrite (logger_log_disabled _ _ _ _ _ _ _ Hdebug).
    rewrite Hfunc. mrun. cbn [Timer.operation Timer.context Timer.start].
    fold (after_clock w2).
    fold (success_extra context
            ((clock w2 (ticks w2) - clock w (ticks w)) * 1000)).
    rewrite (logger_log_clash _ _ _ _ _ _ _ k Hinfo)
      by (by apply find_clash_success_extra).
    reflexivity.
Qed.

Lemma X10_witness :
  fst (instrument (default_settings sample_strftime) Scoped "database_query"
         [("name", PStr "primary")] (ret 7) sample_world)
  = Raised (overwrite_error "name").
Proof.
  apply (X10_clashing_context_turns_success_into_KeyError
           (default_settings sample_strftime) Scoped "database_query"
           [("name", PStr "primary")] "name" (ret 7) sample_world 7
           (after_clock sample_world));
    reflexivity.
Defined.

(** ** Timing helpers of the metrics module *)

Lemma observations_observed h labels v evs w :
  observations h (recorded (reg_observe h labels v) evs w) labels
  = (observations h w labels ++ [v])%list.
Proof.
  unfold observations, recorded, reg_observe. cbn [registry].
  destruct h; simpl;
    unfold child_observations, append_to; by rewrite lookup_insert_eq.
Qed.

Lemma observations_elsewhere h labels v evs w h' labels' :
  ~ (h' = h /\ labels' = labels) ->
  observations h' (recorded (reg_observe h labels v) evs w) labels'
  = observations h' w labels'.
Proof.
  intros Hne. unfold observations, recorded, reg_observe. cbn [registry].
  destruct h, h'; simpl; try reflexivity;
    unfold child_observations, append_to;
    rewrite lookup_insert_ne; try reflexivity;
    intros ->; by apply Hne.
Qed.

(** X11.  [track_time] records on every exit: whether the wrapped function
    returns or raises, its outcome reaches the caller unchanged and exactly
    one observation, the clock reading after the call minus the one before
    it, is appended to the child of the metric under the given labels; no
    other child changes. *)
Theorem X11_track_time_observes_on_every_exit metric labels {A} (func : M A)
    w r w1 :
  func (after_clock w) = (r, w1) ->
  let run := track_time.wrapper metric labels func w in
  fst run = r
  /\ observations metric (snd run) labels
     = (observations metric w1 labels
        ++ [clock w1 (ticks w1) - clock w (ticks w)])%list
  /\ forall h l, ~ (h = metric /\ l = labels) ->
                 observations h (snd run) l = observations h w1 l.
Proof.
  intros Hfunc run. subst run.
  rewrite (track_time_observes_on_every_exit _ _ _ _ _ _ Hfunc).
  cbn [fst snd]. split; [reflexivity|]. split.
  - apply observations_observed.
  - intros h l Hne. by apply observations_elsewhere.
Qed.

Lemma X11_witness :
  fst (track_time.wrapper H_http_request_duration ["SELECT"; "users"]
         (raise sample_error : M unit) sample_world)
  = Raised sample_error.
Proof.
  apply (X11_track_time_observes_on_every_exit H_http_request_duration
           ["SELECT"; "users"] (raise sample_error : M unit) sample_world
           (Raised sample_error) (after_clock sample_world)).
  reflexivity.
Defined.

(** X12.  The context manager [Timer] of the metrics module and the
    decorator [track_time] are the same instrument: around any work, from
    any state, they give the same outcome and leave the same state.  In
    particular the timer records its observation when the block raises,
    and does not suppress the exception. *)
Theorem X12_metrics_timer_agrees_with_track_time metric labels {A}
    (body : M A) w :
  MetricsTimer.scope metric labels body w
  = track_time.wrapper metric labels body w.
Proof.
  unfold MetricsTimer.scope, with_statement, MetricsTimer.enter,
    MetricsTimer.exit, MetricsTimer.init, track_time.wrapper, try_finally,
    observe.
  mrun. cbn [MetricsTimer.metric MetricsTimer.labels MetricsTimer.start].
  destruct (body _) as [[a|e] w1]; mrun;
    cbn [MetricsTimer.metric MetricsTimer.labels MetricsTimer.start];
    reflexivity.
Qed.

(** ** The connection pool gauge *)


(** ** Loggers with additional context *)

Lemma json_absent cfg trace_id record k :
  dict_get k (rec_extra record) = None ->
  overridden k = false ->
  k <> "exc_info" ->
  dict_get k (json_of cfg trace_id record) = None.
Proof.
  intros Hget Hover Hexc.
  unfold overridden, in_strings, reserved_keys in Hover. simpl in Hover.
  apply orb_false_elim in Hover as [Hres Htrace].
  repeat (apply orb_false_elim in Hres as [? Hres]). clear Hres.
  assert (in_strings k JsonFormatter.required_fields = false) as Hreq.
  { unfold in_strings, JsonFormatter.required_fields. simpl.
    repeat match goal with
           | H : String.eqb k ?f = false |- context [String.eqb k ?f] =>
               rewrite H
           end. reflexivity. }
  repeat match goal with
         | H : String.eqb _ _ = false |- _ => apply String.eqb_neq in H
         end.
  unfold json_of. cbn zeta.
  destruct (truthy trace_id); rewrite !dict_get_set_ne by done;
    unfold JsonFormatter.add_fields; rewrite merge_record_extra_eq;
    (rewrite merge_absent by (by apply dict_get_none_keys));
    by apply base_fields_other.
Qed.

(** X14.  A logger made by [create_logger] is the service's logger with a
    fixed context, whatever name it was asked for: in production mode every
    record it writes is under the service's logger name and carries the
    context fields, and a field passed with the call itself does not reach
    the record unless the context has a field of that name. *)
Theorem X14_create_logger_context_replaces_call_fields cfg name context site
    level msg extra exc_info w :
  production cfg ->
  NoDup (dict_keys context) ->
  let written :=
    new_records w
      (snd (adapter_log cfg (create_logger name context) site level msg extra
              exc_info w)) in
  Forall
    (fun e =>
       rec_name (em_record e) = SERVICE_NAME cfg
       /\ member "logger" (em_output e) = Some (PStr (SERVICE_NAME cfg))
       /\ (forall k v,
             dict_get k context = Some v ->
             overridden k = false ->
             JsonFormatter.starts_with_underscore k = false ->
             member k (em_output e) = Some v)
       /\ (forall k,
             dict_get k context = None ->
             overridden k = false ->
             k <> "exc_info" ->
             member k (em_output e) = None))
    written
  /\ (accepted context -> isEnabledFor cfg level = true ->
      length written = 1%nat).
Proof.
  intros Hprod Hnodup written. subst written.
  unfold adapter_log, create_logger. cbn [adapter_extra].
  destruct (isEnabledFor cfg level) eqn:Henabled.
  - rewrite logger_log_eq, Henabled.
    destruct (find extra_clash (dict_keys context)) eqn:Hclash; cbn [snd].
    + rewrite (new_records_app _ _ []) by (simpl; by rewrite app_nil_r).
      split; [constructor|]. unfold accepted. congruence.
    + rewrite (new_records_app _ _
                 [emitted_at cfg site level msg context exc_info w])
        by reflexivity.
      split; [|done]. constructor; [|constructor].
      unfold emitted_at. cbn [em_output em_record].
      rewrite render_production by done. cbn [member].
      set (record := record_at cfg site level msg context exc_info
                       (clock w (ticks w))).
      pose proof (json_reserved_values cfg (trace_id_var w) record)
        as (_ & _ & _ & _ & _ & Hlogger & _).
      split; [reflexivity|]. split; [exact Hlogger|]. split.
      * intros k v Hget Hover Hunder.
        apply json_caller_field; try done. by eapply accepted_key.
      * intros k Hget Hover Hexc. by apply json_absent.
  - cbn [ret snd].
    rewrite (new_records_app _ _ []) by (by rewrite app_nil_r).
    split; [constructor|]. discriminate.
Qed.

Lemma X14_witness :
  length
    (new_records sample_world
       (snd (adapter_log sample_production
               (create_logger "api.users" [("endpoint", PStr "/api/users")])
               sample_site INFO "Users fetched" [("count", PInt 3)] None
               sample_world)))
  = 1%nat.
Proof.
  apply (X14_create_logger_context_replaces_call_fields sample_production
           "api.users" [("endpoint", PStr "/api/users")] sample_site INFO
           "Users fetched" [("count", PInt 3)] None sample_world).
  - discriminate.
  - repeat constructor. intros H. inversion H.
  - reflexivity.
  - reflexivity.
Defined.

(** ** Both middlewares together *)

Lemma gauge_after_dispatch cfg request d w r w' :
  MetricsMiddleware.dispatch cfg request (call_next cfg d) w = (r, w') ->
  gauge w' [SERVICE_NAME cfg]
  = gauge w [SERVICE_NAME cfg]
    + match r with Returned _ => 0 | Raised _ => 1 end.
Proof.
  intros H. destruct r as [response|e].
  - rewrite (gauge_restored_on_return _ _ _ _ _ _ H). lia.
  - apply dispatch_runs in H.
    inversion H as [e' He|n w1 e' w2 Hn Hentry Hnext
                   |n w1 response w2 r w3 Hn Hentry Hnext Hres]; subst.
    + rewrite gauge_recorded. cbn [reg_gauge active_requests].
      apply child_value_add_to_eq.
    + erewrite call_next_gauge by eassumption. by eapply gauge_after_entry.
    + rewrite resume_eq in Hres. cbn zeta in Hres.
      destruct (size_of (headers response)); [discriminate|].
      injection Hres as _ <-. rewrite gauge_recorded. cbn beta.
      erewrite <- gauge_after_entry by eassumption.
      by eapply call_next_gauge.
Qed.

